(** * SnapLaw: risk-clause detection and scoring (utils.py)

    A shallow embedding of the rule-based core of [utils.py]:
    [RISK_PATTERNS], [detect_risk_clauses], [calculate_complexity_score]
    and [calculate_risk_score], together with the pieces of the Python
    runtime they call ([str.lower], [str.strip], [str.split], [str.find],
    [str.rfind], slicing, [re.finditer], [re.split]).

    Modelling conventions.
    - A Python [str] is a list of Unicode code points, each an [N].
      Case mapping is exact up to U+00FF and for the two code points above
      it whose lowercase contains an ASCII letter (U+0130, U+212A); any
      other cased letter above U+00FF is left in place: its lowercase is
      one code point outside ASCII, so neither the length of the
      lowercased text nor a match of an ASCII pattern depends on it.
    - Python [int] is [Z] (or [nat] for lengths and offsets); Python
      [float] is modelled by exact rationals [Q]: the scoring formulas use
      only [+], [*], [/] and [min] on finite values.
    - A division whose divisor is not a literal is fallible
      ([ZeroDivisionError]) and returns [option]. *)

From Stdlib Require Import List Ascii String NArith ZArith QArith Qminmax Lia Lqa
  Bool Arith Permutation.
Import ListNotations.


(** ** Python strings *)

Module PyStr.

Definition char := N.

Definition str := list char.

(** [ord] of a character constant, and a string constant as a [str]. *)
Definition ord (c : ascii) : char := N_of_ascii c.

Definition of_string (s : string) : str := map ord (list_ascii_of_string s).

Definition in_range (lo hi n : N) : bool := ((lo <=? n) && (n <=? hi))%N.

(** The simple lowercase of one code point: A-Z and the Latin-1 capitals
    U+00C0..U+00DE (except the multiplication sign U+00D7) move up by 32;
    U+0130 (capital I with dot above) goes to [i] and U+212A (Kelvin sign)
    to [k].  The other cased code points above U+00FF are left in place:
    their lowercase is not ASCII, not whitespace and not a full stop, and
    it is matched by no ASCII literal, so that the spans and the
    sentences the detector reads off the lowercase text are the same. *)
Definition lower_char (c : char) : char :=
  if in_range 65 90 c || (in_range 192 222 c && negb (c =? 215)%N)
  then (c + 32)%N
  else if (c =? 304)%N then 105%N
  else if (c =? 8490)%N then 107%N
  else c.

(** [str.lower] on one code point: the simple lowercase, except that
    U+0130 becomes the two code points [i], U+0307. *)
Definition lower_cp (c : char) : list char :=
  if (c =? 304)%N then [105%N; 775%N] else [lower_char c].

Definition lower (s : str) : str := flat_map lower_cp s.

(** [str.isspace] on one code point. *)
Definition isspace (c : char) : bool :=
  in_range 9 13 c || in_range 28 32 c || (c =? 133)%N || (c =? 160)%N
  || (c =? 5760)%N || in_range 8192 8202 c || (c =? 8232)%N || (c =? 8233)%N
  || (c =? 8239)%N || (c =? 8287)%N || (c =? 12288)%N.

Fixpoint lstrip (s : str) : str :=
  match s with
  | [] => []
  | c :: s' => if isspace c then lstrip s' else s
  end.

Definition rstrip (s : str) : str := rev (lstrip (rev s)).

Definition strip (s : str) : str := rstrip (lstrip s).

(** [s.split()]: maximal runs of non-whitespace code points. [cur] is the
    word being read, in reverse. *)
Fixpoint split_aux (cur : str) (s : str) : list str :=
  match s with
  | [] => match cur with [] => [] | _ => [rev cur] end
  | c :: s' =>
      if isspace c
      then match cur with
           | [] => split_aux [] s'
           | _ => rev cur :: split_aux [] s'
           end
      else split_aux (c :: cur) s'
  end.

Definition split (s : str) : list str := split_aux [] s.

(** [s[lo:hi]] for [0 <= lo] and [0 <= hi]. *)
Definition slice (s : str) (lo hi : nat) : str := firstn (hi - lo) (skipn lo s).

Fixpoint index_of (ch : char) (s : str) : option nat :=
  match s with
  | [] => None
  | c :: s' => if (c =? ch)%N then Some 0%nat else option_map S (index_of ch s')
  end.

Fixpoint last_index_of (ch : char) (s : str) : option nat :=
  match s with
  | [] => None
  | c :: s' =>
      match last_index_of ch s' with
      | Some i => Some (S i)
      | None => if (c =? ch)%N then Some 0%nat else None
      end
  end.

(** [s.find(ch, start)]: lowest index [>= start] holding [ch], or -1. *)
Definition find (s : str) (ch : char) (start : nat) : Z :=
  match index_of ch (skipn start s) with
  | Some i => Z.of_nat (start + i)
  | None => (-1)%Z
  end.

(** [s.rfind(ch, lo, hi)]: highest index in [lo, hi) holding [ch], or -1. *)
Definition rfind (s : str) (ch : char) (lo hi : nat) : Z :=
  match last_index_of ch (slice s lo hi) with
  | Some i => Z.of_nat (lo + i)
  | None => (-1)%Z
  end.

End PyStr.

(** ** The fragment of Python's [re] used by the module *)

Module Re.
Import PyStr.

(** A pattern is a sequence of one-character items, each with a
    quantifier: this covers literals, [.*] and [x?], which is all the
    syntax the catalog uses. *)
Inductive item := Char (c : char) | Dot.
Inductive quant := Once | Optional | Star.
Definition regex := list (item * quant).

Definition item_of (c : char) : item :=
  if (c =? ord ".")%N then Dot else Char c.

Fixpoint parse (s : str) : regex :=
  match s with
  | [] => []
  | c :: rest =>
      match rest with
      | q :: rest' =>
          if (q =? ord "*")%N then (item_of c, Star) :: parse rest'
          else if (q =? ord "?")%N then (item_of c, Optional) :: parse rest'
          else (item_of c, Once) :: parse rest
      | [] => [(item_of c, Once)]
      end
  end.

Definition compile (p : string) : regex := parse (of_string p).

(** Characters with a meaning of their own in [re] that [parse] does not
    interpret; a pattern free of them is read by [parse] as [re] reads it. *)
Definition unsupported (c : char) : bool :=
  existsb (N.eqb c) (of_string "\^$+{}[]()|"%string).

(** Under [re.IGNORECASE] an ASCII literal [lo] also accepts the code
    points listed here: dotless i for [i], long s for [s]. *)
Definition case_fixes (lo : char) : list char :=
  if (lo =? 105)%N then [305%N]
  else if (lo =? 115)%N then [383%N]
  else [].

(** One item against one code point. [.] matches anything but a newline;
    under [re.IGNORECASE] the simple lowercase of the code point is
    compared with the lowercase literal and its case fixes (ASCII
    literals). *)
Definition item_matches (ignorecase : bool) (it : item) (c : char) : bool :=
  match it with
  | Dot => negb (c =? 10)%N
  | Char pc =>
      if ignorecase
      then let lo := lower_char pc in
           existsb (N.eqb (lower_char c)) (lo :: case_fixes lo)
      else (c =? pc)%N
  end.

(** The lengths of all matches of [r] anchored at the head of [s], in
    the order the backtracking matcher tries them: quantifiers are
    greedy, so the longer alternative comes first. *)
Fixpoint matches (ic : bool) (r : regex) (s : str) {struct r} : list nat :=
  match r with
  | [] => [0%nat]
  | (it, q) :: r' =>
      let one (s : str) (k : str -> list nat) : list nat :=
        match s with
        | c :: s' => if item_matches ic it c then map S (k s') else []
        | [] => []
        end in
      match q with
      | Once => one s (matches ic r')
      | Optional => one s (matches ic r') ++ matches ic r' s
      | Star =>
          (fix star (s : str) : list nat :=
             match s with
             | c :: s' => if item_matches ic it c then map S (star s') else []
             | [] => []
             end ++ matches ic r' s) s
      end
  end.

(** The match the engine reports at a position: the first alternative,
    or the first non-empty one when the previous match was empty and
    ended here ([must_advance]). *)
Definition match_here (ic : bool) (r : regex) (must_advance : bool) (s : str)
  : option nat :=
  List.find (fun n => negb must_advance || negb (n =? 0)%nat) (matches ic r s).

(** [re.finditer]: the spans [(start, end)] of the non-overlapping
    matches, left to right. [pos] is the offset of [s] in the subject
    and [skip] the number of code points of [s] still covered by the
    last match. *)
Fixpoint scan (ic : bool) (r : regex) (pos skip : nat) (s : str) {struct s}
  : list (nat * nat) :=
  let next (skip' : nat) : list (nat * nat) :=
    match s with
    | [] => []
    | _ :: s' => scan ic r (S pos) skip' s'
    end in
  match skip with
  | S k => next k
  | O =>
      match match_here ic r false s with
      | Some (S k) => (pos, pos + S k)%nat :: next k
      | Some O =>
          (pos, pos) ::
          match match_here ic r true s with
          | Some (S k) => (pos, pos + S k)%nat :: next k
          | _ => next 0%nat
          end
      | None => next 0%nat
      end
  end.

Definition finditer (ic : bool) (pattern : string) (s : str) : list (nat * nat) :=
  scan ic (compile pattern) 0 0 s.

(** [re.split(r'[.!?]+', s)]: the pieces between maximal runs of
    separators, empty pieces included. [cur] is the piece being read, in
    reverse; [in_sep] says that the previous code point was a separator. *)
Fixpoint split_runs (sep : char -> bool) (cur : str) (in_sep : bool) (s : str)
  : list str :=
  match s with
  | [] => [rev cur]
  | c :: s' =>
      if sep c
      then if in_sep then split_runs sep [] true s'
           else rev cur :: split_runs sep [] true s'
      else split_runs sep (c :: cur) false s'
  end.

End Re.

(** ** The risk pattern catalog *)

Module Info.
(** One value of the [RISK_PATTERNS] dictionary. *)
Record t := mk {
  patterns : list string;
  type : string;
  severity : string;
  explanation : string
}.
End Info.

Module Clause.
(** One element of the list [detect_risk_clauses] returns. *)
Record t := mk {
  text : PyStr.str;
  type : string;
  severity : string;
  explanation : string
}.
End Clause.

Open Scope string_scope.

(** The dictionary keeps insertion order, so it is an association list. *)
Definition RISK_PATTERNS : list (string * Info.t) :=
  [ ("binding_arbitration",
     Info.mk
       [ "binding arbitration"; "arbitration clause"; "waive.*right.*jury trial";
         "resolve.*disputes.*arbitration"; "mandatory arbitration" ]
       "Binding Arbitration"
       "High"
       "You may be giving up your right to sue in court and must resolve disputes through arbitration.");
    ("non_refundable",
     Info.mk
       [ "non-refundable"; "no refunds?"; "all sales final";
         "payments?.*not.*refund"; "fees are final" ]
       "Non-refundable"
       "Medium"
       "You may not be able to get your money back under any circumstances.");
    ("automatic_renewal",
     Info.mk
       [ "automatic.*renewal"; "auto.*renew"; "automatically.*extend";
         "renew.*unless.*cancel"; "auto-renewal" ]
       "Auto-renewal"
       "Medium"
       "The contract will automatically renew unless you actively cancel it.");
    ("liability_waiver",
     Info.mk
       [ "waive.*liability"; "not.*liable.*damages"; "disclaim.*warranties";
         "use.*at.*own.*risk"; "hold harmless" ]
       "Liability Waiver"
       "High"
       "The company may not be responsible for damages or problems that occur.");
    ("data_collection",
     Info.mk
       [ "collect.*personal.*data"; "share.*information.*third.*parties";
         "sell.*data"; "tracking.*cookies"; "personal information" ]
       "Data Collection"
       "Medium"
       "Your personal information may be collected, stored, or shared with other companies.");
    ("termination_rights",
     Info.mk
       [ "terminate.*at.*will"; "suspend.*account.*any.*time";
         "discontinue.*service.*notice"; "modify.*terms.*without.*notice" ]
       "Unfair Termination"
       "High"
       "The company can end the agreement or change terms with little or no notice.")
  ].

Definition legal_terms : list string :=
  [ "whereas"; "heretofore"; "hereinafter"; "notwithstanding"; "aforementioned";
    "pursuant"; "thereof"; "hereby"; "hereunder"; "indemnify"; "covenant";
    "warranty"; "liability"; "jurisdiction"; "arbitration"; "severability";
    "consideration"; "breach"; "termination"; "governing"; "enforceable" ].

Close Scope string_scope.

(** ** detect_risk_clauses *)

Section Detect.
Import PyStr.

(** The sentence around a match [(m_start, m_end)]: lines 134-139. *)
Definition sentence_start (text : str) (m_start : nat) : nat :=
  Z.to_nat (Z.max 0 (rfind text (ord ".") 0 m_start + 1)).

Definition sentence_end (text : str) (m_end : nat) : nat :=
  let e := find text (ord ".") m_end in
  if (e =? -1)%Z then List.length text else Z.to_nat e.

Definition sentence_of (text : str) (m : nat * nat) : str :=
  let start := sentence_start text (fst m) in
  let end_ := sentence_end text (snd m) in
  strip (slice text start end_).

(** [for match in matches]: the first match whose sentence is longer
    than 20 is appended to [risks] and ends the loop. *)
Fixpoint for_matches (text : str) (risk_info : Info.t)
         (matches : list (nat * nat)) (risks : list Clause.t) : list Clause.t :=
  match matches with
  | [] => risks
  | m :: rest =>
      let sentence := sentence_of text m in
      if (20 <? List.length sentence)%nat
      then risks ++ [ Clause.mk sentence (Info.type risk_info)
                        (Info.severity risk_info) (Info.explanation risk_info) ]
      else for_matches text risk_info rest risks
  end.

(** [for pattern in risk_info["patterns"]]. *)
Fixpoint for_patterns (text text_lower : str) (risk_info : Info.t)
         (patterns : list string) (risks : list Clause.t) : list Clause.t :=
  match patterns with
  | [] => risks
  | pattern :: rest =>
      let matches := Re.finditer true pattern text_lower in
      for_patterns text text_lower risk_info rest
        (for_matches text risk_info matches risks)
  end.

(** [for risk_key, risk_info in RISK_PATTERNS.items()]. *)
Fixpoint for_items (text text_lower : str) (items : list (string * Info.t))
         (risks : list Clause.t) : list Clause.t :=
  match items with
  | [] => risks
  | (_, risk_info) :: rest =>
      for_items text text_lower rest
        (for_patterns text text_lower risk_info (Info.patterns risk_info) risks)
  end.

Definition detect_risk_clauses (text : str) : list Clause.t :=
  let risks := [] in
  let text_lower := lower text in
  for_items text text_lower RISK_PATTERNS risks.

End Detect.

(** ** calculate_complexity_score *)

(** [a / b] on numbers: raises [ZeroDivisionError] when [b] is zero. *)
Definition truediv (a b : Q) : option Q :=
  if Qeq_bool b 0 then None else Some (a / b)%Q.

Notation "x <- e ;; k" :=
  (match e with Some x => k | None => None end)
  (at level 61, e at next level, right associativity).

Definition len {A : Type} (l : list A) : Q := inject_Z (Z.of_nat (List.length l)).

(** Truth value of a list: [if l] and [if not l]. *)
Definition truthy {A : Type} (l : list A) : bool :=
  match l with [] => false | _ => true end.

Definition is_sentence_sep (c : PyStr.char) : bool :=
  (c =? PyStr.ord ".")%N || (c =? PyStr.ord "!")%N || (c =? PyStr.ord "?")%N.

(** [w in l] for a word and a list of string constants. *)
Definition str_in (w : PyStr.str) (l : list string) : bool :=
  existsb (fun t => if list_eq_dec N.eq_dec w (PyStr.of_string t) then true else false) l.

Definition calculate_complexity_score (text : PyStr.str) : option Q :=
  let words := PyStr.split text in
  let sentences := Re.split_runs is_sentence_sep [] false text in
  let sentences :=
    map PyStr.strip (filter (fun s => truthy (PyStr.strip s)) sentences) in
  if negb (truthy sentences) then Some 1
  else
    avg_words_per_sentence <- truediv (len words) (len sentences) ;;
    let legal_term_count :=
      len (filter (fun word => str_in (PyStr.lower word) legal_terms) words) in
    legal_density <-
      (if truthy words
       then d <- truediv legal_term_count (len words) ;; Some (d * 100)
       else Some 0) ;;
    let sentence_complexity := Qmin (avg_words_per_sentence / 15) 2 in
    let term_complexity := Qmin (legal_density / 2) 2 in
    Some (Qmin ((sentence_complexity + term_complexity) * (5 # 2)) 10).

(** ** calculate_risk_score *)

(** The loop over [risk_clauses], [clause_risk] being the accumulator. *)
Fixpoint for_clauses (risk_clauses : list Clause.t) (clause_risk : Z) : Z :=
  match risk_clauses with
  | [] => clause_risk
  | clause :: rest =>
      if String.eqb (Clause.severity clause) "High"%string
      then for_clauses rest (clause_risk + 3)
      else if String.eqb (Clause.severity clause) "Medium"%string
      then for_clauses rest (clause_risk + 2)
      else for_clauses rest (clause_risk + 1)
  end.

Definition calculate_risk_score (risk_clauses : list Clause.t) (complexity : Q)
           (word_count : Z) : Q :=
  let clause_risk := for_clauses risk_clauses 0 in
  let length_factor := Qmin (inject_Z word_count / 1000) 2 in
  let complexity_factor := (complexity / 10)%Q in
  Qmin ((inject_Z clause_risk * (6 # 10)) + (length_factor * (2 # 10))
        + (complexity_factor * (2 # 10))) 10.

(** ** Notions used in the statements *)

(** A match qualifies when its trimmed sentence is longer than 20. *)
Definition qualifies (text : PyStr.str) (m : nat * nat) : bool :=
  (20 <? List.length (sentence_of text m))%nat.

Definition clause_of (text : PyStr.str) (risk_info : Info.t) (m : nat * nat)
  : Clause.t :=
  Clause.mk (sentence_of text m) (Info.type risk_info)
            (Info.severity risk_info) (Info.explanation risk_info).

(** What one pattern of one category contributes to the result. *)
Definition found (text : PyStr.str) (risk_info : Info.t) (pattern : string)
  : list Clause.t :=
  match List.find (qualifies text) (Re.finditer true pattern (PyStr.lower text)) with
  | Some m => [clause_of text risk_info m]
  | None => []
  end.

Definition all_patterns : list string :=
  flat_map (fun kv => Info.patterns (snd kv)) RISK_PATTERNS.


(** The sentences [calculate_complexity_score] counts, before trimming. *)
Definition sentence_fragments (text : PyStr.str) : list PyStr.str :=
  filter (fun s => truthy (PyStr.strip s))
         (Re.split_runs is_sentence_sep [] false text).

(** The risk formula in the words of the specification. *)
Definition weight (severity : string) : option Z :=
  if String.eqb severity "High" then Some 3%Z
  else if String.eqb severity "Medium" then Some 2%Z
  else if String.eqb severity "Low" then Some 1%Z
  else None.

Fixpoint sum_of_weights (findings : list Clause.t) : option Z :=
  match findings with
  | [] => Some 0%Z
  | f :: rest =>
      w <- weight (Clause.severity f) ;;
      s <- sum_of_weights rest ;;
      Some (w + s)%Z
  end.

Definition risk_formula (clause_risk : Z) (complexity : Q) (word_count : Z) : Q :=
  Qmin ((6 # 10) * inject_Z clause_risk
        + (2 # 10) * Qmin (inject_Z word_count / 1000) 2
        + (2 # 10) * (complexity / 10)) 10.

Definition with_severity (severity : string) (f : Clause.t) : Clause.t :=
  Clause.mk (Clause.text f) (Clause.type f) severity (Clause.explanation f).

(** No whitespace at the head, respectively at the end, of a string. *)
Definition starts_ok (s : PyStr.str) : Prop :=
  match s with [] => True | c :: _ => PyStr.isspace c = false end.

Definition ends_ok (s : PyStr.str) : Prop := starts_ok (rev s).

(** Catalog lookup by key, and the inputs used as examples below. *)
Definition risk_info_at (key : string) : Info.t :=
  match List.find (fun kv => String.eqb (fst kv) key) RISK_PATTERNS with
  | Some kv => snd kv
  | None => Info.mk [] "" "" ""
  end.

Definition refund_text : PyStr.str :=
  PyStr.of_string "No refund. There are no refunds for any purchase made.".

Definition arbitration_text : PyStr.str :=
  PyStr.of_string "This agreement contains binding arbitration clauses. All payments are non-refundable under any circumstances.".

Definition simple_text : PyStr.str :=
  PyStr.of_string "This is a simple contract. It has short sentences.".

(** ** The matcher as a relation, and the shape of the catalog's patterns *)

(** [Matching ic r s n]: [r] matches the first [n] code points of [s]. *)
Inductive Matching (ic : bool) : Re.regex -> PyStr.str -> nat -> Prop :=
| M_nil s : Matching ic [] s 0
| M_once it r c s n :
    Re.item_matches ic it c = true -> Matching ic r s n ->
    Matching ic ((it, Re.Once) :: r) (c :: s) (S n)
| M_opt_take it r c s n :
    Re.item_matches ic it c = true -> Matching ic r s n ->
    Matching ic ((it, Re.Optional) :: r) (c :: s) (S n)
| M_opt_skip it r s n :
    Matching ic r s n -> Matching ic ((it, Re.Optional) :: r) s n
| M_star_take it r c s n :
    Re.item_matches ic it c = true -> Matching ic ((it, Re.Star) :: r) s n ->
    Matching ic ((it, Re.Star) :: r) (c :: s) (S n)
| M_star_stop it r s n :
    Matching ic r s n -> Matching ic ((it, Re.Star) :: r) s n.

(** The letters a-z. *)
Definition solid (pc : PyStr.char) : bool := PyStr.in_range 97 122 pc.

Definition letters : list PyStr.char := map N.of_nat (seq 97 26).

(** The code points up to U+3000, the last whitespace. *)
Definition up_to_3000 : list PyStr.char :=
  map N.of_nat (seq 0 (N.to_nat 12289)).

(** The sentence separators and the whitespace code points, one by one. *)
Definition blank_code_points : list PyStr.char :=
  [ 46; 33; 63; 9; 10; 11; 12; 13; 28; 29; 30; 31; 32; 133; 160; 5760;
    8192; 8193; 8194; 8195; 8196; 8197; 8198; 8199; 8200; 8201; 8202;
    8232; 8233; 8239; 8287; 12288 ]%N.

(** A code point of the lowercased text that a literal letter accepts. *)
Definition by_letter (c : PyStr.char) : Prop :=
  exists pc, solid pc = true /\ Re.item_matches true (Re.Char pc) c = true.

(** The pattern begins with a mandatory letter. *)
Definition starts_solid (r : Re.regex) : bool :=
  match r with
  | (Re.Char pc, Re.Once) :: _ => solid pc
  | _ => false
  end.

(** The pattern is made of optional letters only. *)
Fixpoint optional_letters (r : Re.regex) : bool :=
  match r with
  | [] => true
  | (Re.Char pc, Re.Optional) :: r' => solid pc && optional_letters r'
  | _ => false
  end.

(** The pattern ends with a mandatory letter followed by optional letters
    only, so the last code point of any match is taken by a letter. *)
Fixpoint ends_solid (r : Re.regex) : bool :=
  match r with
  | [] => false
  | (it, q) :: r' =>
      ends_solid r'
      || match it, q with
         | Re.Char pc, Re.Once => solid pc && optional_letters r'
         | _, _ => false
         end
  end.

Definition well_shaped (pattern : string) : bool :=
  starts_solid (Re.compile pattern) && ends_solid (Re.compile pattern).

(** Sentence separators and whitespace. *)
Definition blank (c : PyStr.char) : bool := is_sentence_sep c || PyStr.isspace c.

(** The last of the first [n] code points of [s] is accepted by a letter. *)
Definition last_by_letter (s : PyStr.str) (n : nat) : Prop :=
  exists k c, n = S k /\ nth_error s k = Some c /\ by_letter c.

Definition blank_text : PyStr.str := PyStr.of_string " ?!.. !".

(** A string constant in which [#] stands for U+0130, the capital I with
    dot above, and a text with a Turkish heading that uses it. *)
Definition with_dotted_I (s : string) : PyStr.str :=
  map (fun c => if (c =? PyStr.ord "#")%N then 304%N else c) (PyStr.of_string s).

Definition dotted_text : PyStr.str :=
  with_dotted_I "D#KKAT: T#CAR# B#LD#R#M L#M#TED #PTAL ED#LEMEZ. No refund. Contact our support team for details.".

(** [m] occurs in [s] as a run of consecutive code points. *)
Fixpoint prefixb (m s : PyStr.str) : bool :=
  match m, s with
  | [], _ => true
  | x :: m', y :: s' => (x =? y)%N && prefixb m' s'
  | _ :: _, [] => false
  end.

Fixpoint infixb (m s : PyStr.str) : bool :=
  prefixb m s || match s with [] => false | _ :: s' => infixb m s' end.

(** ** The text extractors of utils.py and the analyzer of analyzer.py

    The outside world is a parameter: the PDF library, the image library,
    the file system and the generative model are functions that return a
    value or raise. An exception is represented by its [str]; log lines
    are not modelled. *)

(** [inl msg]: an exception was raised, [str] of it is [msg]. *)
Definition raises (A : Type) : Type := (PyStr.str + A)%type.

(** Text lines joined by newlines, for the multi-line prompts. *)
Fixpoint lines (ls : list string) : PyStr.str :=
  match ls with
  | [] => []
  | [l] => PyStr.of_string l
  | l :: rest => PyStr.of_string l ++ [10%N] ++ lines rest
  end.

(** [s.endswith(suffix)] and [s.split(sep)] for a one-character [sep]. *)
Definition endswith (s suffix : PyStr.str) : bool :=
  prefixb (rev suffix) (rev s).

Fixpoint split_on (sep : PyStr.char) (cur : PyStr.str) (s : PyStr.str)
  : list PyStr.str :=
  match s with
  | [] => [rev cur]
  | c :: s' =>
      if (c =? sep)%N then rev cur :: split_on sep [] s'
      else split_on sep (c :: cur) s'
  end.

(** An opened image, as the content of its file. *)
Definition image := PyStr.str.

(** The argument of [generate_content]: a prompt, or a prompt and an image. *)
Inductive content := Prompt (p : PyStr.str) | PromptImage (p : PyStr.str) (img : image).

(** A generative model: [generate_content(...).text], or an exception.
    The function gives the reply to each call of one run; the service
    samples its replies, so that no property below compares the replies
    to two calls. *)
Definition Model := content -> raises PyStr.str.

Record Env := mkEnv {
  (** [PyPDF2], [None] when its import failed: the texts of the pages of
      the file at a path, in order. *)
  PyPDF2 : option (PyStr.str -> raises (list PyStr.str));
  (** [Image.open(file_path)]. *)
  Image_open : PyStr.str -> raises image;
  (** [open(file_path, 'r', ...).read()]. *)
  open_read : PyStr.str -> raises PyStr.str
}.

Definition extract_text_from_pdf (env : Env) (file_path : PyStr.str)
  : raises PyStr.str :=
  match PyPDF2 env with
  | None => inl (PyStr.of_string "PyPDF2 not available")
  | Some pdf_reader =>
      match pdf_reader file_path with
      | inr pages =>
          let text :=
            fold_left (fun text page => text ++ page ++ [10%N]) pages [] in
          inr (PyStr.strip text)
      | inl e => inl (PyStr.of_string "Could not extract text from PDF: " ++ e)
      end
  end.

Definition image_prompt : PyStr.str :=
  PyStr.of_string "Extract all text from this image. If this appears to be a legal document or contract, preserve the formatting and structure. Return only the extracted text.".

Definition extract_text_from_image (env : Env) (file_path : PyStr.str)
           (model : option Model) : raises PyStr.str :=
  let wrap (e : PyStr.str) : raises PyStr.str :=
    inl (PyStr.of_string "Could not extract text from image: " ++ e) in
  match Image_open env file_path with
  | inl e => wrap e
  | inr image =>
      match model with
      | None => wrap (PyStr.of_string "'NoneType' object has no attribute 'generate_content'")
      | Some generate_content =>
          match generate_content (PromptImage image_prompt image) with
          | inl e => wrap e
          | inr response_text => inr response_text
          end
      end
  end.

Module Analyzer.
Import PyStr.

(** The attribute [current_document_text]: absent when [__init__] failed
    before setting it, [None] before the first analysis, else a text. *)
Inductive attr := Missing | PyNone | Text (s : str).

Record t := mk {
  model : option Model;
  current_document_text : attr
}.

(** [__init__]: [new_model] is the outcome of [genai.GenerativeModel(...)]. *)
Definition init (new_model : raises Model) : t :=
  match new_model with
  | inr m => mk (Some m) PyNone
  | inl _ => mk None Missing
  end.

Definition summary_prompt (text : str) : str :=
  lines ([ "Create a brief, clear summary of this legal document in plain English.";
          "        Focus on the key points, obligations, and important terms. Maximum 200 words.";
          "";
          "        Document:";
          "        " ])%string
  ++ slice text 0 3000
  ++ lines ([ ""; ""; "        Summary:" ])%string.

Definition generate_summary (self : t) (text : str) : str :=
  match model self with
  | None => of_string "Summary unavailable - Gemini model not initialized"
  | Some generate_content =>
      match generate_content (Prompt (summary_prompt text)) with
      | inr response_text => strip response_text
      | inl _ => of_string "Summary could not be generated due to an error."
      end
  end.

Definition simplify_prompt (text : str) : str :=
  lines ([ "Please simplify the following legal text into plain English that anyone can understand.";
          "        Keep the meaning intact but make it accessible to non-lawyers. Use simple words, shorter sentences,";
          "        and everyday language.";
          "";
          "        Legal Text:";
          "        " ])%string
  ++ slice text 0 3000
  ++ lines ([ ""; ""; "        Simplified Version:" ])%string.

Definition simplify_text (self : t) (text : str) : str :=
  match model self with
  | None => of_string "Simplified text unavailable - Gemini model not initialized"
  | Some generate_content =>
      match generate_content (Prompt (simplify_prompt text)) with
      | inr response_text => strip response_text
      | inl _ => of_string "Text could not be simplified due to an error."
      end
  end.

Definition key_terms_prompt (text : str) : str :=
  lines ([ "Extract the most important legal terms and concepts from this document.";
          "        Return only a comma-separated list of terms, maximum 15 terms. Focus on key obligations,";
          "        rights, penalties, and important concepts.";
          "";
          "        Document:";
          "        " ])%string
  ++ slice text 0 2000
  ++ lines ([ ""; ""; "        Key terms:" ])%string.

Definition extract_key_terms (self : t) (text : str) : list str :=
  match model self with
  | None => [of_string "Key terms unavailable - Gemini model not initialized"]
  | Some generate_content =>
      match generate_content (Prompt (key_terms_prompt text)) with
      | inr response_text =>
          let terms := map strip (split_on (ord ",") [] response_text) in
          firstn 15 terms
      | inl _ => [of_string "Terms could not be extracted"]
      end
  end.

Definition answer_prompt (question document_text : str) : str :=
  lines ([ "Based on the following legal document, please answer this question accurately and concisely:";
          "";
          "        Question: " ])%string
  ++ question
  ++ lines ([ ""; ""; "        Document:"; "        " ])%string
  ++ slice document_text 0 4000
  ++ lines ([ ""; ""; "        Answer:" ])%string.

Definition answer_question (self : t) (question document_text : str) : str :=
  match model self with
  | None => of_string "Question answering unavailable - Gemini model not initialized"
  | Some generate_content =>
      match generate_content (Prompt (answer_prompt question document_text)) with
      | inr response_text => strip response_text
      | inl _ => of_string "I couldn't answer that question due to an error."
      end
  end.

(** The dictionary [analyze_document] returns. *)
Record analysis := mkAnalysis {
  word_count : Z;
  complexity_score : Q;
  risk_clauses : list Clause.t;
  risk_score : Q;
  summary : str;
  simplified_text : str;
  key_terms : list str;
  original_text : str
}.

(** Lines 116-123: the extractor is chosen by the end of the lowercased
    file name. *)
Definition extract_text (self : t) (env : Env) (file_path filename : str)
  : raises str :=
  if endswith (lower filename) (of_string ".pdf")
  then extract_text_from_pdf env file_path
  else if existsb (endswith (lower filename))
                  [of_string ".jpg"; of_string ".jpeg"; of_string ".png"]
  then extract_text_from_image env file_path (model self)
  else open_read env file_path.

(** [analyze_document]: the new state of the analyzer and the dictionary,
    or the exception raised. *)
Definition analyze_document (self : t) (env : Env) (file_path filename : str)
  : t * raises analysis :=
  let failed (self : t) (e : str) : t * raises analysis :=
    (self, inl (of_string "Analysis failed: " ++ e)) in
  match extract_text self env file_path filename with
  | inl e => failed self e
  | inr text =>
      if negb (truthy text) || (List.length (strip text) <? 50)%nat
      then failed self
             (of_string "Document appears to be empty or too short to analyze")
      else
        let self := mk (model self) (Text text) in
        let word_count := Z.of_nat (List.length (split text)) in
        match calculate_complexity_score text with
        | None => failed self (of_string "division by zero")
        | Some complexity_score =>
            let risk_clauses := detect_risk_clauses text in
            let risk_score :=
              calculate_risk_score risk_clauses complexity_score word_count in
            let summary := generate_summary self text in
            let simplified_text := simplify_text self text in
            let key_terms := extract_key_terms self text in
            (self,
             inr (mkAnalysis word_count complexity_score risk_clauses
                    risk_score summary simplified_text key_terms
                    (if (1000 <? List.length text)%nat
                     then slice text 0 1000 ++ of_string "..."
                     else text)))
        end
  end.

End Analyzer.

(** ** The request handlers of app.py *)

Module App.
Import PyStr.






(** The JSON answers of [/ask]. *)
Inductive ask_response := Answer (answer : str) | Error (error : str).

(** The [/ask] handler on a JSON object body; [question_field] is its
    ["question"] member, a string when present. *)
Definition ask_question (analyzer : Analyzer.t) (question_field : option str)
  : ask_response :=
  let question :=
    strip (match question_field with Some q => q | None => [] end) in
  if negb (truthy question)
  then Error (of_string "No question provided")
  else
    match Analyzer.current_document_text analyzer with
    | Analyzer.Missing =>
        Error (of_string "'DocumentAnalyzer' object has no attribute 'current_document_text'")
    | Analyzer.PyNone => Error (of_string "No document analyzed yet")
    | Analyzer.Text document_text =>
        if negb (truthy document_text)
        then Error (of_string "No document analyzed yet")
        else Answer (Analyzer.answer_question analyzer question document_text)
    end.

End App.

(** ** Notions used in the further properties *)

Definition shouted_refund_text : PyStr.str :=
  PyStr.of_string "NO REFUND. THERE ARE NO REFUNDS FOR ANY PURCHASE MADE.".

(** The two quantities [calculate_complexity_score] derives from a text
    that has a sentence (lines 160 and 170-171). *)
Definition avg_words_per_sentence (text : PyStr.str) : Q :=
  len (PyStr.split text) / len (map PyStr.strip (sentence_fragments text)).

Definition legal_density (text : PyStr.str) : Q :=
  let words := PyStr.split text in
  if truthy words
  then len (filter (fun word => str_in (PyStr.lower word) legal_terms) words)
       / len words * 100
  else 0.

Definition legal_text : PyStr.str :=
  PyStr.of_string "Whereas the parties hereby agree to the binding terms of this rather long opening sentence".


(** A model that answers every prompt with the prompt itself. *)
Definition echo_model : Model :=
  fun c => match c with Prompt p => inr p | PromptImage p _ => inr p end.

Definition dense_text : PyStr.str :=
  PyStr.of_string "whereas the buyer hereby agrees to pay the seller all of the money that is owed under this deal on the first day of each month in full and with no delay".

(** Code points that take no part in detection: from U+0080 on, not
    whitespace, and none of U+0130, dotless i (U+0131), long s (U+017F)
    and the Kelvin sign (U+212A), the only ones from U+0080 on whose
    lowercase, or whose match under [re.IGNORECASE], is an ASCII
    letter. *)
Definition inert (c : PyStr.char) : bool :=
  (128 <=? c)%N && negb (PyStr.isspace c)
  && negb (existsb (N.eqb c) [304; 305; 383; 8490]%N).

(** Two code points with the same lowercase under [lower_cp]. *)
Definition same_lower (c1 c2 : PyStr.char) : Prop :=
  PyStr.lower_cp c1 = PyStr.lower_cp c2.

(** Two code points the detector does not tell apart: they have the same
    lowercase, or both are inert.  [lower_cp] lowers A-Z, the Latin-1
    capitals, U+0130 and U+212A; the two cases of any other letter
    (Greek, Cyrillic, ...) are inert, and alike for that reason. *)
Definition alike (c1 c2 : PyStr.char) : Prop :=
  same_lower c1 c2 \/ (inert c1 = true /\ inert c2 = true).

(** Two findings that differ at most in their sentences, which agree
    code point by code point up to [R]. *)
Definition same_clause (R : PyStr.char -> PyStr.char -> Prop) (f g : Clause.t)
  : Prop :=
  Clause.type f = Clause.type g
  /\ Clause.severity f = Clause.severity g
  /\ Clause.explanation f = Clause.explanation g
  /\ Forall2 R (Clause.text f) (Clause.text g).

(** A pattern whose literals are ASCII. *)
Definition ascii_item (it : Re.item) : bool :=
  match it with Re.Dot => true | Re.Char pc => (pc <? 128)%N end.

Definition ascii_pattern (r : Re.regex) : bool :=
  forallb (fun iq => ascii_item (fst iq)) r.

(** Two code points that every ASCII item treats alike. *)
Definition same_match (d1 d2 : PyStr.char) : Prop :=
  forall it, ascii_item it = true ->
             Re.item_matches true it d1 = Re.item_matches true it d2.

(** [refund_text] after a capital sigma, and its capitals after a small
    sigma. *)
Definition sigma_refund_text : PyStr.str := 931%N :: 32%N :: refund_text.

Definition shouted_sigma_refund_text : PyStr.str :=
  963%N :: 32%N :: shouted_refund_text.

(** * Properties *)

(** ** The detector as a map over the catalog *)

Section DetectorShape.
Variable text : PyStr.str.

Lemma for_matches_find (risk_info : Info.t) (ms : list (nat * nat))
      (risks : list Clause.t) :
  for_matches text risk_info ms risks =
  risks ++ match List.find (qualifies text) ms with
           | Some m => [clause_of text risk_info m]
           | None => []
           end.
Proof.
  induction ms as [|m ms IH]; simpl.
  - now rewrite app_nil_r.
  - unfold qualifies at 1. destruct (20 <? _)%nat; [reflexivity | exact IH].
Qed.

Lemma for_patterns_found (risk_info : Info.t) (ps : list string) :
  forall risks,
    for_patterns text (PyStr.lower text) risk_info ps risks =
    risks ++ flat_map (found text risk_info) ps.
Proof.
  induction ps as [|p ps IH]; intros risks; simpl.
  - now rewrite app_nil_r.
  - rewrite IH, for_matches_find, <- app_assoc. reflexivity.
Qed.

Lemma for_items_found (items : list (string * Info.t)) :
  forall risks,
    for_items text (PyStr.lower text) items risks =
    risks ++ flat_map (fun kv => flat_map (found text (snd kv))
                                          (Info.patterns (snd kv))) items.
Proof.
  induction items as [|[k info] items IH]; intros risks; simpl.
  - now rewrite app_nil_r.
  - rewrite IH, for_patterns_found, <- app_assoc. reflexivity.
Qed.

Lemma detect_found :
  detect_risk_clauses text =
  flat_map (fun kv => flat_map (found text (snd kv)) (Info.patterns (snd kv)))
           RISK_PATTERNS.
Proof. unfold detect_risk_clauses. now rewrite for_items_found. Qed.

Lemma found_length (risk_info : Info.t) (p : string) :
  (List.length (found text risk_info p) <= 1)%nat.
Proof. unfold found. destruct (List.find _ _); simpl; lia. Qed.

Lemma flat_map_found_length (risk_info : Info.t) (ps : list string) :
  (List.length (flat_map (found text risk_info) ps) <= List.length ps)%nat.
Proof.
  induction ps as [|p ps IH]; simpl; [lia|].
  rewrite length_app. pose proof (found_length risk_info p). lia.
Qed.

Lemma detect_in_found (f : Clause.t) :
  In f (detect_risk_clauses text) ->
  exists key risk_info pattern,
    In (key, risk_info) RISK_PATTERNS /\
    In pattern (Info.patterns risk_info) /\
    In f (found text risk_info pattern).
Proof.
  rewrite detect_found, in_flat_map. intros [[k info] [Hk Hf]].
  apply in_flat_map in Hf. destruct Hf as [p [Hp Hf]].
  now exists k, info, p.
Qed.

Lemma found_in_match (risk_info : Info.t) (p : string) (f : Clause.t) :
  In f (found text risk_info p) ->
  exists m, In m (Re.finditer true p (PyStr.lower text)) /\
            qualifies text m = true /\ f = clause_of text risk_info m.
Proof.
  unfold found. destruct (List.find _ _) as [m|] eqn:E; simpl; [|tauto].
  intros [<-|[]]. apply find_some in E. now exists m.
Qed.

End DetectorShape.

(** ** Facts about [strip] *)

Section StripFacts.
Import PyStr.

Lemma lstrip_starts_ok (s : str) : starts_ok (lstrip s).
Proof.
  induction s as [|c s IH]; simpl; [exact I|].
  destruct (isspace c) eqn:E; [exact IH | exact E].
Qed.

Lemma lstrip_id (s : str) : starts_ok s -> lstrip s = s.
Proof. destruct s as [|c s]; simpl; [reflexivity|]. now intros ->. Qed.

Lemma starts_ok_app_l (s t : str) : s <> [] -> starts_ok (s ++ t) -> starts_ok s.
Proof. destruct s; simpl; [congruence | tauto]. Qed.

Lemma starts_ok_app (s t : str) : s <> [] -> starts_ok s -> starts_ok (s ++ t).
Proof. destruct s; simpl; [congruence | tauto]. Qed.

Lemma rev_not_nil (s : str) : s <> [] -> rev s <> [].
Proof.
  destruct s; [congruence|]. simpl. intros _ H.
  apply app_eq_nil in H. destruct H; discriminate.
Qed.

Lemma ends_ok_tail (c : char) (s : str) : s <> [] -> ends_ok (c :: s) -> ends_ok s.
Proof.
  unfold ends_ok. simpl. intros Hs. apply starts_ok_app_l. now apply rev_not_nil.
Qed.

Lemma lstrip_ends_ok (s : str) : ends_ok s -> ends_ok (lstrip s).
Proof.
  induction s as [|c s IH]; simpl; [tauto|].
  destruct (isspace c); [|tauto].
  intros H. destruct s as [|d s]; [exact I|].
  apply IH. eapply ends_ok_tail; [discriminate | exact H].
Qed.

Lemma strip_starts_ok (s : str) : starts_ok (strip s).
Proof.
  unfold strip, rstrip. change (ends_ok (lstrip (rev (lstrip s)))).
  apply lstrip_ends_ok. unfold ends_ok. rewrite rev_involutive.
  apply lstrip_starts_ok.
Qed.

Lemma strip_ends_ok (s : str) : ends_ok (strip s).
Proof.
  unfold ends_ok, strip, rstrip. rewrite rev_involutive. apply lstrip_starts_ok.
Qed.

Lemma strip_id (s : str) : starts_ok s -> ends_ok s -> strip s = s.
Proof.
  intros H1 H2. unfold strip, rstrip. rewrite (lstrip_id s H1).
  rewrite (lstrip_id (rev s) H2). apply rev_involutive.
Qed.

Lemma strip_idempotent (s : str) : strip (strip s) = strip s.
Proof. apply strip_id; [apply strip_starts_ok | apply strip_ends_ok]. Qed.

Lemma lstrip_keeps (a x : str) :
  x <> [] -> starts_ok x -> exists a', lstrip (a ++ x) = a' ++ x.
Proof.
  intros Hx Hs. induction a as [|c a IH]; simpl.
  - exists []. now apply lstrip_id.
  - destruct (isspace c); [exact IH | now exists (c :: a)].
Qed.

Lemma rstrip_keeps (y b : str) :
  y <> [] -> ends_ok y -> exists b', rstrip (y ++ b) = y ++ b'.
Proof.
  intros Hy He. unfold rstrip. rewrite rev_app_distr.
  destruct (lstrip_keeps (rev b) (rev y) (rev_not_nil y Hy) He) as [b' ->].
  exists (rev b'). now rewrite rev_app_distr, rev_involutive.
Qed.

Lemma ends_ok_app (a x : str) : x <> [] -> ends_ok x -> ends_ok (a ++ x).
Proof.
  intros Hx He. unfold ends_ok. rewrite rev_app_distr.
  apply starts_ok_app; [now apply rev_not_nil | exact He].
Qed.

(** Trimming never cuts into a piece that begins and ends with
    non-whitespace. *)
Lemma strip_keeps (a x b : str) :
  x <> [] -> starts_ok x -> ends_ok x ->
  exists a' b', strip (a ++ x ++ b) = a' ++ x ++ b'.
Proof.
  intros Hx Hs He. unfold strip.
  destruct (lstrip_keeps a (x ++ b)) as [a' ->].
  - destruct x; [congruence | discriminate].
  - now apply starts_ok_app.
  - rewrite app_assoc.
    destruct (rstrip_keeps (a' ++ x) b) as [b' ->].
    + destruct a'; simpl; [exact Hx | discriminate].
    + now apply ends_ok_app.
    + exists a', b'. now rewrite <- app_assoc.
Qed.

Lemma lstrip_nil_iff (s : str) : lstrip s = [] <-> forallb isspace s = true.
Proof.
  induction s as [|c s IH]; simpl; [tauto|].
  destruct (isspace c); simpl; [exact IH | split; discriminate].
Qed.

Lemma strip_nil_iff (s : str) : strip s = [] <-> forallb isspace s = true.
Proof.
  rewrite <- lstrip_nil_iff. unfold strip, rstrip. split.
  - intros H. apply (f_equal (@rev char)) in H.
    rewrite rev_involutive in H. simpl in H.
    pose proof (lstrip_starts_ok s) as Hs.
    rewrite (lstrip_id (rev (lstrip s))) in H.
    + apply (f_equal (@rev char)) in H. now rewrite rev_involutive in H.
    + change (ends_ok (lstrip s)).
      destruct (lstrip s) as [|c t] eqn:E; [exact I|].
      exfalso. apply lstrip_nil_iff in H.
      rewrite forallb_forall in H.
      assert (Hc : isspace c = true) by (apply H, in_rev; rewrite rev_involutive; now left).
      simpl in Hs. congruence.
  - intros ->. reflexivity.
Qed.

End StripFacts.

(** ** The detector: which match of a pattern is reported *)

Section DetectorClaims.
Import PyStr.






(** C4: the loop over the matches of one pattern adds at most one clause
    to [risks], however many matches there are; the result is made of
    these contributions, one per pattern of each category, so it is no
    longer than the number of patterns in the catalog, which is 29. *)
Theorem detect_at_most_one_per_pattern (text : str) :
  (forall risk_info pattern risks,
      exists added,
        for_matches text risk_info (Re.finditer true pattern (lower text)) risks
        = risks ++ added
        /\ added = found text risk_info pattern
        /\ (List.length added <= 1)%nat)
  /\ detect_risk_clauses text =
     flat_map (fun kv => flat_map (found text (snd kv)) (Info.patterns (snd kv)))
              RISK_PATTERNS
  /\ (List.length (detect_risk_clauses text) <= List.length all_patterns)%nat
  /\ List.length all_patterns = 29%nat.
Proof.
  split; [|split; [apply detect_found|split]].
  - intros info p risks. exists (found text info p). split; [|split].
    + apply for_matches_find.
    + reflexivity.
    + apply found_length.
  - rewrite detect_found. unfold all_patterns.
    induction RISK_PATTERNS as [|[k info] items IH]; simpl; [lia|].
    rewrite !length_app. pose proof (flat_map_found_length text info (Info.patterns info)).
    lia.
  - reflexivity.
Qed.



(** C10: two clauses of one result can agree on both category and
    sentence: in [arbitration_text] the patterns [binding arbitration]
    and [arbitration clause] of one category match in one sentence, and
    each adds its own clause. *)
Theorem same_sentence_reported_twice :
  exists f1 f2 rest,
    detect_risk_clauses arbitration_text = f1 :: f2 :: rest
    /\ found arbitration_text (risk_info_at "binding_arbitration") "binding arbitration" = [f1]
    /\ found arbitration_text (risk_info_at "binding_arbitration") "arbitration clause" = [f2]
    /\ Clause.type f1 = Clause.type f2
    /\ Clause.text f1 = Clause.text f2
    /\ Clause.text f1 = of_string "This agreement contains binding arbitration clauses".
Proof.
  do 3 eexists. repeat split; vm_compute; reflexivity.
Qed.

End DetectorClaims.

(** ** The risk score *)

Section RiskScore.

Lemma for_clauses_shift (fs : list Clause.t) :
  forall acc, for_clauses fs acc = (acc + for_clauses fs 0)%Z.
Proof.
  induction fs as [|f fs IH]; intros acc; simpl; [lia|].
  destruct (String.eqb _ "High"); [|destruct (String.eqb _ "Medium")];
    match goal with
    | |- for_clauses fs ?a = (_ + for_clauses fs ?b)%Z =>
        rewrite (IH a), (IH b); lia
    end.
Qed.

Lemma for_clauses_app (fs gs : list Clause.t) :
  forall acc, for_clauses (fs ++ gs) acc = for_clauses gs (for_clauses fs acc).
Proof.
  induction fs as [|f fs IH]; intros acc; simpl; [reflexivity|].
  destruct (String.eqb _ "High"); [|destruct (String.eqb _ "Medium")]; apply IH.
Qed.

Lemma for_clauses_weights (fs : list Clause.t) :
  forall risk, sum_of_weights fs = Some risk -> for_clauses fs 0 = risk.
Proof.
  induction fs as [|f fs IH]; intros risk H;
    cbn [sum_of_weights for_clauses] in *.
  - now injection H.
  - unfold weight in H. revert H.
    destruct (String.eqb _ "High");
      [|destruct (String.eqb _ "Medium");
        [|destruct (String.eqb _ "Low"); [|discriminate]]];
      destruct (sum_of_weights fs) as [s|]; try discriminate;
      intros H;
      match type of H with
      | Some ?x = Some _ => assert (E : x = risk) by congruence
      end;
      rewrite <- E, for_clauses_shift, (IH s eq_refl); lia.
Qed.

(** C2: on findings whose severities are High, Medium or Low the result
    is the stated formula over the sum of the weights 3, 2 and 1, with
    an upper clamp at 10 only: no findings, no words and complexity 0
    give 0. *)
Theorem risk_score_formula (fs : list Clause.t) (c : Q) (w : Z) (risk : Z) :
  sum_of_weights fs = Some risk ->
  calculate_risk_score fs c w == risk_formula risk c w
  /\ calculate_risk_score [] 0 0 == 0
  /\ weight "High" = Some 3%Z /\ weight "Medium" = Some 2%Z
  /\ weight "Low" = Some 1%Z.
Proof.
  intros H. split; [|split; [reflexivity | repeat split]].
  unfold calculate_risk_score, risk_formula.
  rewrite (for_clauses_weights fs risk H).
  apply Q.min_compat; [ring | reflexivity].
Qed.

Lemma risk_score_formula_witness :
  calculate_risk_score
    [ Clause.mk [] "" "High" ""; Clause.mk [] "" "Medium" ""; Clause.mk [] "" "Low" "" ]
    8 2000
  == risk_formula 6 8 2000.
Proof.
  apply (risk_score_formula
           [ Clause.mk [] "" "High" ""; Clause.mk [] "" "Medium" "";
             Clause.mk [] "" "Low" "" ] 8 2000 6).
  reflexivity.
Defined.

(** C7: one more High clause at the end of the list never lowers the
    score. *)
Theorem risk_score_monotone_high (fs : list Clause.t) (c : Q) (w : Z)
        (f : Clause.t) :
  Clause.severity f = "High"%string ->
  calculate_risk_score fs c w <= calculate_risk_score (fs ++ [f]) c w.
Proof.
  intros Hf. unfold calculate_risk_score.
  rewrite for_clauses_app. simpl. rewrite Hf. simpl.
  apply Q.min_le_compat_r.
  rewrite inject_Z_plus.
  apply Qplus_le_l, Qplus_le_l.
  setoid_replace ((inject_Z (for_clauses fs 0) + inject_Z 3) * (6 # 10))
    with (inject_Z (for_clauses fs 0) * (6 # 10) + (18 # 10)) by ring.
  rewrite <- (Qplus_0_r (inject_Z (for_clauses fs 0) * (6 # 10))) at 1.
  apply Qplus_le_r. discriminate.
Qed.

Lemma risk_score_monotone_high_witness :
  calculate_risk_score [Clause.mk [] "" "Low" ""] 3 500
  <= calculate_risk_score ([Clause.mk [] "" "Low" ""] ++ [Clause.mk [] "" "High" ""]) 3 500.
Proof.
  apply (risk_score_monotone_high [Clause.mk [] "" "Low" ""] 3 500
                                  (Clause.mk [] "" "High" "")).
  reflexivity.
Defined.

(** C9: a clause whose severity is neither "High" nor "Medium" adds
    exactly 1 to [clause_risk], whatever the string is: it is neither
    rejected nor ignored.  The running total after it is the total
    before it plus 1, the total of a list that holds it is the total of
    the clauses before it, plus 1, plus the total of the clauses after
    it, and the score is the formula over that total, which is also the
    score obtained with "Low" in its place.  Alone, with no words and
    complexity 0, such a clause scores 0.6, where no clause scores 0. *)
Theorem other_severity_weighs_one (f : Clause.t) (before after : list Clause.t)
        (acc : Z) (c : Q) (w : Z) :
  Clause.severity f <> "High"%string ->
  Clause.severity f <> "Medium"%string ->
  for_clauses (f :: after) acc = for_clauses after (acc + 1)
  /\ calculate_risk_score (before ++ f :: after) c w
     = calculate_risk_score (before ++ with_severity "Low" f :: after) c w
  /\ for_clauses [f] acc = (acc + 1)%Z
  /\ for_clauses [with_severity "Low" f] acc = (acc + 1)%Z
  /\ for_clauses (before ++ f :: after) acc
     = (acc + for_clauses before 0 + 1 + for_clauses after 0)%Z
  /\ calculate_risk_score (before ++ f :: after) c w
     == risk_formula (for_clauses before 0 + 1 + for_clauses after 0) c w
  /\ calculate_risk_score [f] 0 0 == 6 # 10
  /\ ~ calculate_risk_score [f] 0 0 == calculate_risk_score [] 0 0.
Proof.
  intros HH HM.
  apply String.eqb_neq in HH, HM.
  assert (E : forall rest a, for_clauses (f :: rest) a = for_clauses rest (a + 1)).
  { intros rest a. simpl. now rewrite HH, HM. }
  assert (T : forall a, for_clauses (before ++ f :: after) a
                        = (a + for_clauses before 0 + 1 + for_clauses after 0)%Z).
  { intros a. rewrite for_clauses_app, E, (for_clauses_shift after),
      (for_clauses_shift before). lia. }
  assert (S1 : calculate_risk_score [f] 0 0 == 6 # 10).
  { unfold calculate_risk_score. rewrite E. reflexivity. }
  split; [apply E|]. split.
  { unfold calculate_risk_score. rewrite !for_clauses_app, E. reflexivity. }
  split; [apply E|]. split; [reflexivity|]. split; [apply T|]. split.
  { unfold calculate_risk_score, risk_formula. rewrite T.
    apply Q.min_compat; [|reflexivity].
    replace (0 + for_clauses before 0 + 1 + for_clauses after 0)%Z
      with (for_clauses before 0 + 1 + for_clauses after 0)%Z by lia.
    ring. }
  split; [exact S1|].
  rewrite S1. discriminate.
Qed.

Lemma other_severity_weighs_one_witness :
  for_clauses [Clause.mk [] "" "Critical" ""] 0 = 1%Z
  /\ for_clauses ([Clause.mk [] "" "High" ""] ++ Clause.mk [] "" "Critical" "" :: []) 0
     = 4%Z
  /\ calculate_risk_score [Clause.mk [] "" "Critical" ""] 0 0 == 6 # 10.
Proof.
  pose proof (other_severity_weighs_one (Clause.mk [] "" "Critical" "")
                [Clause.mk [] "" "High" ""] [] 0 0 0) as H.
  split; [|split].
  - refine (proj1 (proj2 (proj2 (H _ _)))); discriminate.
  - refine (proj1 (proj2 (proj2 (proj2 (proj2 (H _ _)))))); discriminate.
  - refine (proj1 (proj2 (proj2 (proj2 (proj2 (proj2 (proj2 (H _ _)))))))); discriminate.
Defined.

End RiskScore.

(** ** The complexity score *)

Section Complexity.
Import PyStr.

Lemma len_cons_nonzero {A : Type} (x : A) (l : list A) :
  Qeq_bool (len (x :: l)) 0 = false.
Proof.
  destruct (Qeq_bool (len (x :: l)) 0) eqn:E; [|reflexivity].
  apply Qeq_bool_eq in E. unfold len, Qeq in E. simpl in E. lia.
Qed.

Lemma truediv_cons {A : Type} (a : Q) (x : A) (l : list A) :
  truediv a (len (x :: l)) = Some (a / len (x :: l)).
Proof. unfold truediv. now rewrite len_cons_nonzero. Qed.

(** Neither division can fail: the score is always produced. *)
Lemma complexity_total (text : str) :
  exists c, calculate_complexity_score text = Some c.
Proof.
  unfold calculate_complexity_score.
  destruct (map strip _) as [|s ss]; simpl negb; cbv iota.
  - now exists 1.
  - rewrite truediv_cons.
    destruct (split text) as [|w ws]; simpl truthy; cbv iota.
    + eexists. reflexivity.
    + rewrite truediv_cons. eexists. reflexivity.
Qed.

Lemma complexity_at_most_10 (text : str) (c : Q) :
  calculate_complexity_score text = Some c -> c <= 10.
Proof.
  unfold calculate_complexity_score.
  destruct (negb _); [intros [= <-]; discriminate|].
  destruct (truediv _ _); [|discriminate].
  destruct (if truthy (split text) then _ else _); [|discriminate].
  intros [= <-]. apply Q.le_min_r.
Qed.

Lemma complexity_no_sentences (text : str) :
  sentence_fragments text = [] -> calculate_complexity_score text = Some 1.
Proof.
  unfold calculate_complexity_score, sentence_fragments. now intros ->.
Qed.

(** C1 fails on the code: the two short sentences of [simple_text]
    (nine words, no legal term) score 3/4, below the documented floor. *)
Theorem complexity_below_one :
  exists c, calculate_complexity_score simple_text = Some c
            /\ c == 3 # 4 /\ c < 1.
Proof.
  eexists. split; [vm_compute; reflexivity|]. split; reflexivity.
Qed.

End Complexity.


(** ** Facts about the matcher *)

Section MatcherFacts.
Import PyStr.
Variable ic : bool.

Lemma matches_once (it : Re.item) (r : Re.regex) (s : str) :
  Re.matches ic ((it, Re.Once) :: r) s =
  match s with
  | c :: s' => if Re.item_matches ic it c then map S (Re.matches ic r s') else []
  | [] => []
  end.
Proof. reflexivity. Qed.

Lemma matches_optional (it : Re.item) (r : Re.regex) (s : str) :
  Re.matches ic ((it, Re.Optional) :: r) s =
  match s with
  | c :: s' => if Re.item_matches ic it c then map S (Re.matches ic r s') else []
  | [] => []
  end ++ Re.matches ic r s.
Proof. reflexivity. Qed.

Lemma matches_star (it : Re.item) (r : Re.regex) (s : str) :
  Re.matches ic ((it, Re.Star) :: r) s =
  match s with
  | c :: s' =>
      if Re.item_matches ic it c
      then map S (Re.matches ic ((it, Re.Star) :: r) s') else []
  | [] => []
  end ++ Re.matches ic r s.
Proof. destruct s; reflexivity. Qed.

Lemma matches_sound (r : Re.regex) :
  forall s n, In n (Re.matches ic r s) -> Matching ic r s n.
Proof.
  induction r as [|[it q] r IH]; intros s n Hn.
  - destruct Hn as [<-|[]]. constructor.
  - destruct q.
    + rewrite matches_once in Hn. destruct s as [|c s]; [destruct Hn|].
      destruct (Re.item_matches ic it c) eqn:E; [|destruct Hn].
      apply in_map_iff in Hn. destruct Hn as [k [<- Hk]].
      constructor; auto.
    + rewrite matches_optional in Hn. apply in_app_or in Hn.
      destruct Hn as [Hn|Hn]; [|apply M_opt_skip; auto].
      destruct s as [|c s]; [destruct Hn|].
      destruct (Re.item_matches ic it c) eqn:E; [|destruct Hn].
      apply in_map_iff in Hn. destruct Hn as [k [<- Hk]].
      apply M_opt_take; auto.
    + revert n Hn. induction s as [|c s IHs]; intros n Hn;
        rewrite matches_star in Hn; apply in_app_or in Hn;
        destruct Hn as [Hn|Hn]; try (apply M_star_stop; auto; fail);
        [destruct Hn|].
      destruct (Re.item_matches ic it c) eqn:E; [|destruct Hn].
      apply in_map_iff in Hn. destruct Hn as [k [<- Hk]].
      apply M_star_take; auto.
Qed.

Lemma Matching_le (r : Re.regex) (s : str) (n : nat) :
  Matching ic r s n -> (n <= List.length s)%nat.
Proof. induction 1; simpl; lia. Qed.

Lemma match_here_sound (r : Re.regex) (must_advance : bool) (s : str) (n : nat) :
  Re.match_here ic r must_advance s = Some n -> Matching ic r s n.
Proof.
  unfold Re.match_here. intros H. apply find_some in H.
  apply matches_sound, H.
Qed.

(** Every span reported by the scanner lies inside the scanned text and
    covers a match of the pattern at its start offset. *)
Lemma scan_spans (r : Re.regex) (s : str) :
  forall pos skip a b,
    In (a, b) (Re.scan ic r pos skip s) ->
    (pos <= a)%nat /\ (a <= b)%nat /\ (b <= pos + List.length s)%nat
    /\ Matching ic r (skipn (a - pos) s) (b - a).
Proof.
  induction s as [|c s IH]; intros pos skip a b Hin.
  - simpl in Hin. destruct skip; [|destruct Hin].
    destruct (Re.match_here ic r false []) as [[|k]|] eqn:E.
    + destruct Hin as [[= <- <-]|Hin].
      * apply match_here_sound in E.
        rewrite Nat.sub_diag. simpl. repeat split; try lia. exact E.
      * destruct (Re.match_here ic r true []) as [[|k]|] eqn:E';
          try (destruct Hin; fail).
        apply match_here_sound, Matching_le in E'. simpl in E'. lia.
    + apply match_here_sound, Matching_le in E. simpl in E. lia.
    + destruct Hin.
  - assert (Hnext : forall k, In (a, b) (Re.scan ic r (S pos) k s) ->
                              (pos <= a)%nat /\ (a <= b)%nat
                              /\ (b <= pos + List.length (c :: s))%nat
                              /\ Matching ic r (skipn (a - pos) (c :: s)) (b - a)).
    { intros k Hk. destruct (IH _ _ _ _ Hk) as (H1 & H2 & H3 & H4).
      simpl List.length. repeat split; try lia.
      replace (a - pos)%nat with (S (a - S pos)) by lia. exact H4. }
    assert (Hhere : forall adv n, Re.match_here ic r adv (c :: s) = Some n ->
                                  (pos <= pos)%nat /\ (pos <= pos + n)%nat
                                  /\ (pos + n <= pos + List.length (c :: s))%nat
                                  /\ Matching ic r (skipn (pos - pos) (c :: s))
                                                (pos + n - pos)).
    { intros adv n E. apply match_here_sound in E.
      pose proof (Matching_le _ _ _ E) as Hle.
      rewrite Nat.sub_diag. replace (pos + n - pos)%nat with n by lia.
      repeat split; try lia. exact E. }
    simpl in Hin. destruct skip as [|k]; [|now apply (Hnext k)].
    destruct (Re.match_here ic r false (c :: s)) as [[|k]|] eqn:E.
    + destruct Hin as [[= <- <-]|Hin].
      * generalize (Hhere _ _ E). now rewrite Nat.add_0_r.
      * destruct (Re.match_here ic r true (c :: s)) as [[|k]|] eqn:E';
          try (now apply (Hnext 0%nat)).
        destruct Hin as [[= <- <-]|Hin]; [apply (Hhere _ _ E') | now apply (Hnext k)].
    + destruct Hin as [[= <- <-]|Hin]; [apply (Hhere _ _ E) | now apply (Hnext k)].
    + now apply (Hnext 0%nat).
Qed.

End MatcherFacts.

Section PatternShape.
Import PyStr.

Lemma Matching_starts (r : Re.regex) (s : str) (n : nat) :
  starts_solid r = true -> Matching true r s n ->
  exists c s' k, s = c :: s' /\ n = S k /\ by_letter c.
Proof.
  intros Hr Hm. destruct Hm as [s|it r c s n Hc Hm| | | |]; simpl in Hr;
    try discriminate; try (destruct it; discriminate).
  destruct it as [pc|]; [|discriminate].
  exists c, s, n. repeat split. now exists pc.
Qed.

Lemma last_by_letter_cons (c : char) (s : str) (n : nat) :
  last_by_letter s n -> last_by_letter (c :: s) (S n).
Proof. intros (k & d & -> & Hk & Hd). now exists (S k), d. Qed.

Lemma last_by_letter_one (pc c : char) (s : str) :
  solid pc = true -> Re.item_matches true (Re.Char pc) c = true ->
  last_by_letter (c :: s) 1.
Proof. intros Hp Hc. exists 0%nat, c. repeat split. now exists pc. Qed.

Lemma Matching_ends (r : Re.regex) (s : str) (n : nat) :
  Matching true r s n ->
  (optional_letters r = true -> n = 0%nat \/ last_by_letter s n)
  /\ (ends_solid r = true -> last_by_letter s n).
Proof.
  induction 1 as [s|it r c s n Hc Hm [IH1 IH2]|it r c s n Hc Hm [IH1 IH2]
                  |it r s n Hm [IH1 IH2]|it r c s n Hc Hm [IH1 IH2]
                  |it r s n Hm [IH1 IH2]]; simpl.
  - split; [now left | discriminate].
  - split; [destruct it; discriminate|].
    intros H. apply orb_true_iff in H. destruct H as [H|H].
    + apply last_by_letter_cons; auto.
    + destruct it as [pc|]; [|discriminate].
      apply andb_true_iff in H. destruct H as [Hp Ho].
      destruct (IH1 Ho) as [->|Hl].
      * now apply last_by_letter_one with pc.
      * now apply last_by_letter_cons.
  - split.
    + destruct it as [pc|]; [|discriminate]. intros H.
      apply andb_true_iff in H. destruct H as [Hp Ho]. right.
      destruct (IH1 Ho) as [->|Hl].
      * now apply last_by_letter_one with pc.
      * now apply last_by_letter_cons.
    + intros H. apply orb_true_iff in H. destruct H as [H|H].
      * apply last_by_letter_cons; auto.
      * destruct it; discriminate.
  - split.
    + destruct it as [pc|]; [|discriminate]. intros H.
      apply andb_true_iff in H. now apply IH1.
    + intros H. apply orb_true_iff in H. destruct H as [H|H]; [auto|].
      destruct it; discriminate.
  - split; [destruct it; discriminate|].
    intros H. apply last_by_letter_cons. apply IH2. exact H.
  - split; [destruct it; discriminate|].
    intros H. apply orb_true_iff in H. destruct H as [H|H]; [auto|].
    destruct it; discriminate.
Qed.

End PatternShape.

(** ** Slices, [find] and [rfind] *)

Section SliceFacts.
Import PyStr.

Lemma firstn_add {A : Type} (n m : nat) (l : list A) :
  firstn (n + m) l = firstn n l ++ firstn m (skipn n l).
Proof.
  revert l. induction n as [|n IH]; intros l; [reflexivity|].
  destruct l as [|x l]; simpl.
  - now rewrite firstn_nil.
  - now rewrite IH.
Qed.

Lemma slice_app (s : str) (lo mid hi : nat) :
  (lo <= mid)%nat -> (mid <= hi)%nat ->
  slice s lo hi = slice s lo mid ++ slice s mid hi.
Proof.
  intros H1 H2. unfold slice.
  replace (hi - lo)%nat with ((mid - lo) + (hi - mid))%nat by lia.
  rewrite firstn_add, skipn_skipn.
  now replace (mid - lo + lo)%nat with mid by lia.
Qed.

Lemma slice_length (s : str) (lo hi : nat) :
  (hi <= List.length s)%nat -> List.length (slice s lo hi) = (hi - lo)%nat.
Proof.
  intros H. unfold slice. rewrite length_firstn, length_skipn. lia.
Qed.

Lemma slice_map (f : char -> char) (s : str) (lo hi : nat) :
  map f (slice s lo hi) = slice (map f s) lo hi.
Proof. unfold slice. now rewrite skipn_map, firstn_map. Qed.

Lemma index_of_none (ch : char) (s : str) :
  index_of ch s = None -> ~ In ch s.
Proof.
  induction s as [|c s IH]; simpl; [tauto|].
  destruct (N.eqb_spec c ch) as [->|Hne]; [discriminate|].
  destruct (index_of ch s); [discriminate|].
  intros _ [H|H]; [congruence | now apply IH].
Qed.

Lemma index_of_split (ch : char) (s : str) :
  forall i, index_of ch s = Some i ->
            exists pre post, s = pre ++ ch :: post
                             /\ List.length pre = i /\ ~ In ch pre.
Proof.
  induction s as [|c s IH]; simpl; intros i H; [discriminate|].
  destruct (N.eqb_spec c ch) as [->|Hne].
  - injection H as <-. exists [], s. simpl. tauto.
  - destruct (index_of ch s) as [j|]; [|discriminate].
    injection H as <-. destruct (IH j eq_refl) as (pre & post & -> & Hl & Hn).
    exists (c :: pre), post. simpl. repeat split; [congruence|].
    intros [E|E]; [congruence | tauto].
Qed.

Lemma last_index_of_none (ch : char) (s : str) :
  last_index_of ch s = None -> ~ In ch s.
Proof.
  induction s as [|c s IH]; simpl; [tauto|].
  destruct (last_index_of ch s); [discriminate|].
  destruct (N.eqb_spec c ch) as [->|Hne]; [discriminate|].
  intros _ [H|H]; [congruence | now apply IH].
Qed.

Lemma last_index_of_split (ch : char) (s : str) :
  forall i, last_index_of ch s = Some i ->
            exists pre post, s = pre ++ ch :: post
                             /\ List.length pre = i /\ ~ In ch post.
Proof.
  induction s as [|c s IH]; simpl; intros i H; [discriminate|].
  destruct (last_index_of ch s) as [j|] eqn:E.
  - injection H as <-. destruct (IH j eq_refl) as (pre & post & -> & Hl & Hn).
    exists (c :: pre), post. simpl. repeat split; [congruence | exact Hn].
  - destruct (N.eqb_spec c ch) as [->|Hne]; [|discriminate].
    injection H as <-. exists [], s. simpl. repeat split.
    now apply last_index_of_none.
Qed.

(** Line 134: the sentence starts right after the last [.] before the
    match, or at the start of the text. *)
Lemma sentence_start_spec (text : str) (m_start : nat) :
  let start := sentence_start text m_start in
  (start <= m_start)%nat
  /\ ~ In (ord ".") (slice text start m_start)
  /\ (start = 0%nat \/ nth_error text (start - 1) = Some (ord ".")).
Proof.
  unfold sentence_start, rfind.
  assert (E0 : slice text 0 m_start = firstn m_start text)
    by (unfold slice; now rewrite Nat.sub_0_r).
  destruct (last_index_of (ord ".") (slice text 0 m_start)) as [i|] eqn:E.
  - destruct (last_index_of_split _ _ _ E) as (pre & post & Hs & Hl & Hn).
    rewrite E0 in Hs.
    replace (Z.to_nat (Z.max 0 (Z.of_nat (0 + i) + 1))) with (S i) by lia.
    assert (Hlen : (S i <= m_start)%nat).
    { pose proof (firstn_le_length m_start text) as Hle.
      rewrite Hs, length_app in Hle. simpl in Hle. lia. }
    split; [exact Hlen|]. split.
    + unfold slice. rewrite <- skipn_firstn_comm, Hs, skipn_app.
      rewrite skipn_all2 by lia.
      replace (S i - List.length pre)%nat with 1%nat by lia. exact Hn.
    + right. simpl. rewrite Nat.sub_0_r.
      rewrite <- (firstn_skipn m_start text), Hs, <- app_assoc.
      rewrite nth_error_app2 by lia.
      now replace (i - List.length pre)%nat with 0%nat by lia.
  - simpl. split; [lia|]. split; [|now left].
    now apply last_index_of_none.
Qed.

(** Lines 135-137: the sentence ends at the first [.] at or after the end
    of the match, or at the end of the text. *)
Lemma sentence_end_spec (text : str) (m_end : nat) :
  (m_end <= List.length text)%nat ->
  let end_ := sentence_end text m_end in
  (m_end <= end_)%nat /\ (end_ <= List.length text)%nat
  /\ ~ In (ord ".") (slice text m_end end_)
  /\ (end_ = List.length text \/ nth_error text end_ = Some (ord ".")).
Proof.
  intros Hb. unfold sentence_end, find.
  destruct (index_of (ord ".") (skipn m_end text)) as [i|] eqn:E.
  - destruct (index_of_split _ _ _ E) as (pre & post & Hs & Hl & Hn).
    replace (Z.of_nat (m_end + i) =? -1)%Z with false
      by (symmetry; apply Z.eqb_neq; lia).
    rewrite Nat2Z.id.
    assert (Hlen : (m_end + i < List.length text)%nat).
    { pose proof (length_skipn m_end text) as Hle.
      rewrite Hs, length_app in Hle. simpl in Hle. lia. }
    repeat split; try lia.
    + unfold slice. replace (m_end + i - m_end)%nat with i by lia.
      rewrite Hs, firstn_app, firstn_all2 by lia.
      replace (i - List.length pre)%nat with 0%nat by lia.
      simpl. now rewrite app_nil_r.
    + right. rewrite <- nth_error_skipn, Hs.
      rewrite nth_error_app2 by lia.
      now replace (i - List.length pre)%nat with 0%nat by lia.
  - simpl. repeat split; try lia.
    unfold slice. rewrite firstn_all2 by (rewrite length_skipn; lia).
    now apply index_of_none.
Qed.

End SliceFacts.

(** ** Letters, blanks and the catalog *)

Section CatalogFacts.
Import PyStr.

Ltac bool_to_prop H :=
  repeat match type of H with
         | (_ || _) = true => apply orb_true_iff in H; destruct H as [H|H]
         | (_ && _) = true =>
             let H' := fresh H in
             apply andb_true_iff in H; destruct H as [H H']; try bool_to_prop H'
         | (_ =? _)%N = true => apply N.eqb_eq in H
         | (_ <=? _)%N = true => apply N.leb_le in H
         end.

Lemma solid_in_letters (pc : char) : solid pc = true -> In pc letters.
Proof.
  unfold solid, in_range. intros H. bool_to_prop H.
  unfold letters. rewrite <- (N2Nat.id pc). apply in_map, in_seq. lia.
Qed.

Lemma blank_bounded (c : char) : blank c = true -> In c up_to_3000.
Proof.
  unfold blank, is_sentence_sep, isspace, in_range. intros H.
  change (ord ".") with 46%N in H. change (ord "!") with 33%N in H.
  change (ord "?") with 63%N in H.
  unfold up_to_3000. rewrite <- (N2Nat.id c). apply in_map, in_seq.
  bool_to_prop H; lia.
Qed.

Lemma blank_listed (c : char) : blank c = true -> In c blank_code_points.
Proof.
  unfold blank, is_sentence_sep, isspace, in_range. intros H.
  change (ord ".") with 46%N in H. change (ord "!") with 33%N in H.
  change (ord "?") with 63%N in H.
  unfold blank_code_points. cbn [In].
  bool_to_prop H; lia.
Qed.

(** A code point whose lowercase a letter accepts is neither whitespace
    nor a sentence separator: checked on each of these code points
    against the 26 letters. *)
Lemma by_letter_not_blank (c : char) :
  by_letter (lower_char c) -> blank c = false.
Proof.
  intros (pc & Hp & Hm).
  destruct (blank c) eqn:B; [exfalso | reflexivity].
  assert (Hall : forallb (fun c =>
            forallb (fun pc => negb (Re.item_matches true (Re.Char pc) (lower_char c)))
                    letters) blank_code_points = true)
    by (vm_compute; reflexivity).
  rewrite forallb_forall in Hall.
  specialize (Hall c (blank_listed c B)).
  rewrite forallb_forall in Hall.
  specialize (Hall pc (solid_in_letters pc Hp)).
  rewrite Hm in Hall. discriminate Hall.
Qed.

Lemma by_letter_not_space (c : char) :
  by_letter (lower_char c) -> isspace c = false.
Proof.
  intros H. apply by_letter_not_blank in H. unfold blank in H.
  now apply orb_false_iff in H.
Qed.

Lemma catalog_well_shaped (p : string) :
  In p all_patterns -> well_shaped p = true.
Proof.
  assert (H : forallb well_shaped all_patterns = true) by (vm_compute; reflexivity).
  rewrite forallb_forall in H. apply H.
Qed.

(** The catalog stays inside the syntax [Re.parse] reads. *)
Lemma catalog_patterns_supported :
  forallb (fun p => negb (existsb Re.unsupported (of_string p))) all_patterns = true.
Proof. vm_compute. reflexivity. Qed.

Lemma in_all_patterns (key : string) (risk_info : Info.t) (p : string) :
  In (key, risk_info) RISK_PATTERNS -> In p (Info.patterns risk_info) ->
  In p all_patterns.
Proof.
  intros Hk Hp. unfold all_patterns. apply in_flat_map.
  now exists (key, risk_info).
Qed.

(** Lowercasing keeps every code point in its place when the text has no
    U+0130. *)
Lemma lower_without_dotted_I (text : str) :
  ~ In 304%N text -> lower text = map lower_char text.
Proof.
  induction text as [|c text IH]; intros H; [reflexivity|].
  unfold lower in *. simpl. unfold lower_cp at 1.
  destruct (N.eqb_spec c 304) as [->|_]; [exfalso; apply H; now left|].
  simpl. f_equal. apply IH. intros Hin. apply H. now right.
Qed.

(** What a span of a well-shaped pattern looks like in the original
    text, when offsets in the two texts agree. *)
Lemma span_shape (text : str) (p : string) (a b : nat) :
  ~ In 304%N text ->
  well_shaped p = true ->
  In (a, b) (Re.finditer true p (lower text)) ->
  (a < b)%nat /\ (b <= List.length text)%nat
  /\ starts_ok (slice text a b) /\ ends_ok (slice text a b).
Proof.
  unfold well_shaped, Re.finditer. intros Hno Hw Hin.
  rewrite (lower_without_dotted_I text Hno) in Hin.
  apply andb_true_iff in Hw. destruct Hw as [Hs He].
  apply scan_spans in Hin. destruct Hin as (_ & Hab & Hb & Hm).
  rewrite length_map in Hb.
  rewrite Nat.sub_0_r in Hm. simpl in Hb.
  destruct (Matching_starts _ _ _ Hs Hm) as (c' & s' & k & Hc & Hk & Hl).
  destruct (proj2 (Matching_ends _ _ _ Hm) He) as (j & d' & Hj & Hd & Hld).
  split; [lia|]. split; [exact Hb|].
  rewrite skipn_map in Hc, Hd.
  unfold slice. rewrite Hj. split.
  - destruct (skipn a text) as [|c rest]; [discriminate|].
    simpl in Hc. injection Hc as <- _. simpl.
    now apply by_letter_not_space.
  - rewrite nth_error_map in Hd.
    destruct (nth_error (skipn a text) j) as [d|] eqn:Ed; [|discriminate].
    injection Hd as <-.
    assert (Hf : firstn (S j) (skipn a text) = firstn j (skipn a text) ++ [d]).
    { replace (S j) with (j + 1)%nat by lia. rewrite firstn_add. f_equal.
      rewrite <- (Nat.add_0_r j) in Ed. rewrite <- nth_error_skipn in Ed.
      destruct (skipn j (skipn a text)); [discriminate|].
      simpl in Ed. now injection Ed as ->. }
    unfold ends_ok. rewrite Hf, rev_app_distr. simpl.
    now apply by_letter_not_space.
Qed.

(** Without a code point that a letter accepts, no pattern of the catalog
    matches anywhere. *)
Lemma blank_text_no_match (text : str) (p : string) :
  well_shaped p = true -> forallb blank text = true ->
  Re.finditer true p (lower text) = [].
Proof.
  intros Hw Hb.
  destruct (Re.finditer true p (lower text)) as [|[a b] rest] eqn:E; [reflexivity|].
  exfalso.
  assert (Hin : In (a, b) (Re.finditer true p (lower text)))
    by (rewrite E; now left).
  unfold Re.finditer in Hin. apply scan_spans in Hin.
  destruct Hin as (_ & _ & _ & Hm). rewrite Nat.sub_0_r in Hm.
  apply andb_true_iff in Hw. destruct Hw as [Hst _].
  destruct (Matching_starts _ _ _ Hst Hm) as (c' & s' & k & Hc' & _ & Hl).
  assert (Hin : In c' (lower text)).
  { rewrite <- (firstn_skipn a (lower text)), Hc'.
    apply in_or_app. right. now left. }
  unfold lower in Hin. apply in_flat_map in Hin.
  destruct Hin as (c & Hc & Hcc).
  rewrite forallb_forall in Hb. specialize (Hb c Hc).
  unfold lower_cp in Hcc. destruct (N.eqb_spec c 304) as [->|_].
  - vm_compute in Hb. discriminate Hb.
  - destruct Hcc as [<-|[]]. apply by_letter_not_blank in Hl. congruence.
Qed.

(** The pieces [re.split] returns all trim to nothing only when the text
    is made of separators and whitespace. *)
Lemma split_runs_blank (s : str) :
  forall cur in_sep,
    (in_sep = true -> cur = []) ->
    filter (fun f => truthy (strip f))
           (Re.split_runs is_sentence_sep cur in_sep s) = [] ->
    forallb isspace cur = true /\ forallb blank s = true.
Proof.
  induction s as [|c s IH]; intros cur in_sep Hinv H; simpl in H.
  - destruct (strip (rev cur)) eqn:E; [|discriminate].
    apply strip_nil_iff in E. split; [|reflexivity].
    apply forallb_forall. intros x Hx.
    rewrite forallb_forall in E. apply E. now apply in_rev in Hx.
  - simpl. unfold blank at 1. destruct (is_sentence_sep c) eqn:Ec.
    + destruct in_sep.
      * rewrite (Hinv eq_refl). split; [reflexivity|].
        now apply (IH [] true).
      * simpl in H. destruct (strip (rev cur)) eqn:E; [|discriminate].
        simpl in H. apply strip_nil_iff in E. split.
        -- apply forallb_forall. intros x Hx.
           rewrite forallb_forall in E. apply E. now apply in_rev in Hx.
        -- now apply (IH [] true).
    + destruct (IH (c :: cur) false) as [Hcur Hs]; [discriminate | exact H |].
      simpl in Hcur. apply andb_true_iff in Hcur. destruct Hcur as [Hc Hcur].
      split; [exact Hcur|]. now rewrite Hc, Hs.
Qed.

Lemma no_sentences_blank (text : str) :
  sentence_fragments text = [] -> forallb blank text = true.
Proof.
  intros H. apply (split_runs_blank text [] false); [discriminate | exact H].
Qed.

Lemma flat_map_nil {A B : Type} (f : A -> list B) (l : list A) :
  (forall x, In x l -> f x = []) -> flat_map f l = [].
Proof.
  induction l as [|x l IH]; intros H; simpl; [reflexivity|].
  rewrite (H x (or_introl eq_refl)), IH; [reflexivity|].
  intros y Hy. apply H. now right.
Qed.

Lemma detect_blank (text : str) :
  forallb blank text = true -> detect_risk_clauses text = [].
Proof.
  intros Hb. rewrite detect_found.
  apply flat_map_nil. intros [k info] Hk.
  apply flat_map_nil. intros p Hp. simpl in Hp.
  unfold found.
  rewrite (blank_text_no_match text p); [reflexivity | | exact Hb].
  apply catalog_well_shaped. now apply in_all_patterns with k info.
Qed.

Lemma prefixb_app (m after : str) : prefixb m (m ++ after) = true.
Proof.
  induction m as [|x m IH]; [reflexivity|]. simpl.
  now rewrite N.eqb_refl, IH.
Qed.

Lemma infixb_complete (m s : str) :
  (exists before after, s = before ++ m ++ after) -> infixb m s = true.
Proof.
  intros (before & after & ->).
  induction before as [|x before IH].
  - simpl. destruct (m ++ after) eqn:E; simpl; rewrite <- E, prefixb_app;
      reflexivity.
  - simpl. rewrite IH. apply orb_true_r.
Qed.

End CatalogFacts.

(** ** Empty and blank input; the sentence of a finding *)

Section InputClaims.
Import PyStr.

(** C6: on the empty text, and on any text whose split at runs of [.],
    [!], [?] leaves no piece with a non-whitespace code point, the
    detector returns the empty list and the complexity is exactly 1; the
    complexity score is produced for every text: neither division can
    fail. (The detector is a total function: none of its operations can
    fail.) *)
Theorem empty_and_blank_text (text : str) :
  detect_risk_clauses [] = []
  /\ calculate_complexity_score [] = Some 1
  /\ (sentence_fragments text = [] ->
      detect_risk_clauses text = [] /\ calculate_complexity_score text = Some 1)
  /\ (exists c, calculate_complexity_score text = Some c).
Proof.
  split; [reflexivity|]. split; [reflexivity|]. split.
  - intros H. split.
    + now apply detect_blank, no_sentences_blank.
    + now apply complexity_no_sentences.
  - apply complexity_total.
Qed.

Lemma empty_and_blank_text_witness :
  detect_risk_clauses blank_text = []
  /\ calculate_complexity_score blank_text = Some 1.
Proof.
  apply (proj1 (proj2 (proj2 (empty_and_blank_text blank_text)))).
  vm_compute. reflexivity.
Defined.

(** On a text without U+0130 the sentence of every clause returned is the
    trimmed slice [text[start:end]] of the original text, where
    [(m_start, m_end)] is a span found in the lowercased text, [start] is
    just after the last [.] before [m_start] (0 if there is none) and
    [end] is the first [.] at or after [m_end] (the length of the text if
    there is none); the code points of the original text at the span,
    which lowercase to the matched ones, are part of the sentence. *)
Lemma sentence_is_span_around_match (text : str) (f : Clause.t) :
  ~ In 304%N text ->
  In f (detect_risk_clauses text) ->
  exists pattern m_start m_end start end_,
    In pattern all_patterns
    /\ In (m_start, m_end) (Re.finditer true pattern (lower text))
    /\ Clause.text f = strip (slice text start end_)
    /\ (m_start < m_end)%nat /\ (m_end <= List.length text)%nat
    /\ (start <= m_start)%nat
    /\ ~ In (ord ".") (slice text start m_start)
    /\ (start = 0%nat \/ nth_error text (start - 1) = Some (ord "."))
    /\ (m_end <= end_)%nat /\ (end_ <= List.length text)%nat
    /\ ~ In (ord ".") (slice text m_end end_)
    /\ (end_ = List.length text \/ nth_error text end_ = Some (ord "."))
    /\ (exists before after,
          Clause.text f = before ++ slice text m_start m_end ++ after)
    /\ slice (lower text) m_start m_end = map lower_char (slice text m_start m_end).
Proof.
  intros Hno Hf.
  destruct (detect_in_found _ _ Hf) as (k & info & p & Hk & Hp & Hin).
  destruct (found_in_match _ _ _ _ Hin) as ([a b] & Hm & _ & ->).
  pose proof (in_all_patterns _ _ _ Hk Hp) as Hall.
  destruct (span_shape text p a b Hno (catalog_well_shaped p Hall) Hm)
    as (Hab & Hb & Hs & He).
  destruct (sentence_start_spec text a) as (S1 & S2 & S3).
  destruct (sentence_end_spec text b Hb) as (E1 & E2 & E3 & E4).
  exists p, a, b, (sentence_start text a), (sentence_end text b).
  repeat (split; [assumption || reflexivity|]).
  split; [|rewrite (lower_without_dotted_I text Hno); symmetry; apply slice_map].
  simpl. unfold sentence_of. simpl fst. simpl snd.
  rewrite (slice_app text (sentence_start text a) a (sentence_end text b)) by lia.
  rewrite (slice_app text a b (sentence_end text b)) by lia.
  apply strip_keeps; [|exact Hs|exact He].
  intros E. apply (f_equal (@List.length char)) in E.
  rewrite slice_length in E by exact Hb. simpl in E. lia.
Qed.

(** C8 fails on the code when the text holds U+0130 before the match:
    its lowercase has two code points, so the offsets of the match in the
    lowercased text point further right in the original text. In
    [dotted_text] the heading holds ten of them; "No refund" stands at
    48..57 of the text, the match is found at 58..67 of the lowercased
    text, and the sentence cut out around 58..67 of the original text is
    the next one, which does not contain the match. *)
Theorem sentence_misses_shifted_match :
  Re.finditer true "no refunds?" (lower dotted_text) = [(58, 67)%nat]
  /\ slice (lower dotted_text) 58 67 = of_string "no refund"
  /\ slice dotted_text 48 57 = of_string "No refund"
  /\ detect_risk_clauses dotted_text =
     [ Clause.mk (of_string "Contact our support team for details")
                 "Non-refundable" "Medium"
                 "You may not be able to get your money back under any circumstances." ]
  /\ ~ (exists before after,
          lower (of_string "Contact our support team for details")
          = before ++ of_string "no refund" ++ after).
Proof.
  repeat split; try (vm_compute; reflexivity).
  intros H. apply infixb_complete in H. vm_compute in H. discriminate H.
Qed.

End InputClaims.

(** * Further properties of the detector *)

Section DetectorMore.
Import PyStr.

Lemma lstrip_suffix (s : str) : exists pre, s = pre ++ lstrip s.
Proof.
  induction s as [|c s [pre IH]]; [now exists []|]. simpl.
  destruct (isspace c); [|now exists []].
  exists (c :: pre). simpl. now rewrite <- IH.
Qed.

Lemma strip_infix (s : str) : exists pre post, s = pre ++ strip s ++ post.
Proof.
  destruct (lstrip_suffix s) as [pre Hpre].
  destruct (lstrip_suffix (rev (lstrip s))) as [post Hpost].
  exists pre, (rev post). unfold strip, rstrip.
  rewrite <- rev_app_distr, <- Hpost, rev_involutive. exact Hpre.
Qed.

Lemma slice_infix (s : str) (lo hi : nat) :
  exists pre post, s = pre ++ slice s lo hi ++ post.
Proof.
  exists (firstn lo s), (skipn (hi - lo) (skipn lo s)). unfold slice.
  now rewrite firstn_skipn, firstn_skipn.
Qed.

Lemma sentence_infix (text : str) (m : nat * nat) :
  exists pre post, text = pre ++ sentence_of text m ++ post.
Proof.
  unfold sentence_of.
  destruct (slice_infix text (sentence_start text (fst m))
                        (sentence_end text (snd m))) as (p1 & q1 & H1).
  destruct (strip_infix (slice text (sentence_start text (fst m))
                               (sentence_end text (snd m)))) as (p2 & q2 & H2).
  exists (p1 ++ p2), (q2 ++ q1).
  rewrite H1 at 1. rewrite H2 at 1. now rewrite <- !app_assoc.
Qed.

Lemma detect_in_clause (text : str) (f : Clause.t) :
  In f (detect_risk_clauses text) ->
  exists key risk_info pattern m,
    In (key, risk_info) RISK_PATTERNS
    /\ In pattern (Info.patterns risk_info)
    /\ In m (Re.finditer true pattern (lower text))
    /\ qualifies text m = true
    /\ f = clause_of text risk_info m.
Proof.
  intros Hf.
  destruct (detect_in_found _ _ Hf) as (k & info & p & Hk & Hp & Hin).
  destruct (found_in_match _ _ _ _ Hin) as (m & Hm & Hq & ->).
  now exists k, info, p, m.
Qed.

(** X1: a finding quotes the document: its sentence is a run of
    consecutive code points of the input text; hence a text of 20 code
    points or fewer yields no finding. *)
Theorem finding_quotes_text (text : str) :
  (forall f, In f (detect_risk_clauses text) ->
             exists before after, text = before ++ Clause.text f ++ after)
  /\ ((List.length text <= 20)%nat -> detect_risk_clauses text = []).
Proof.
  assert (Hq : forall f, In f (detect_risk_clauses text) ->
                         exists before after, text = before ++ Clause.text f ++ after).
  { intros f Hf.
    destruct (detect_in_clause _ _ Hf) as (k & info & p & m & _ & _ & _ & _ & ->).
    apply sentence_infix. }
  split; [exact Hq|]. intros Hlen.
  destruct (detect_risk_clauses text) as [|f rest] eqn:E; [reflexivity|].
  exfalso.
  assert (Hf : In f (detect_risk_clauses text)) by (rewrite E; now left).
  destruct (Hq f (or_introl eq_refl)) as (b & a & Hba).
  destruct (detect_in_clause _ _ Hf) as (k & info & p & m & _ & _ & _ & Hm & ->).
  unfold qualifies in Hm. apply Nat.ltb_lt in Hm. simpl in Hba.
  apply (f_equal (@List.length char)) in Hba.
  rewrite !length_app in Hba. lia.
Qed.

Lemma finding_quotes_text_witness :
  (exists before after,
      refund_text
      = before ++ of_string "There are no refunds for any purchase made" ++ after)
  /\ detect_risk_clauses (of_string "No refunds, sorry.") = [].
Proof.
  split.
  - apply (proj1 (finding_quotes_text refund_text)
                 (Clause.mk (of_string "There are no refunds for any purchase made")
                            "Non-refundable" "Medium"
                            "You may not be able to get your money back under any circumstances.")).
    vm_compute. left. reflexivity.
  - apply (proj2 (finding_quotes_text (of_string "No refunds, sorry."))).
    simpl. lia.
Defined.

(** X2: the category, severity and explanation of a finding are those of
    one catalog entry, and the severity is "High" or "Medium": the
    detector never reports a "Low" clause. *)
Theorem finding_fields_from_catalog (text : str) (f : Clause.t) :
  In f (detect_risk_clauses text) ->
  (exists key risk_info,
      In (key, risk_info) RISK_PATTERNS
      /\ Clause.type f = Info.type risk_info
      /\ Clause.severity f = Info.severity risk_info
      /\ Clause.explanation f = Info.explanation risk_info)
  /\ (Clause.severity f = "High"%string \/ Clause.severity f = "Medium"%string).
Proof.
  intros Hf.
  destruct (detect_in_clause _ _ Hf) as (k & info & p & m & Hk & _ & _ & _ & ->).
  split; [now exists k, info|]. simpl.
  assert (H : forallb (fun kv => String.eqb (Info.severity (snd kv)) "High"
                                 || String.eqb (Info.severity (snd kv)) "Medium")
                      RISK_PATTERNS = true) by reflexivity.
  rewrite forallb_forall in H. specialize (H _ Hk). simpl in H.
  apply orb_true_iff in H.
  destruct H as [H|H]; apply String.eqb_eq in H; tauto.
Qed.

Lemma finding_fields_from_catalog_witness :
  "Medium"%string = "High"%string \/ "Medium"%string = "Medium"%string.
Proof.
  apply (finding_fields_from_catalog refund_text
           (Clause.mk (of_string "There are no refunds for any purchase made")
                      "Non-refundable" "Medium"
                      "You may not be able to get your money back under any circumstances.")).
  vm_compute. left. reflexivity.
Defined.

Lemma found_types (text : str) (risk_info : Info.t) (ps : list string) :
  map Clause.type (flat_map (found text risk_info) ps)
  = repeat (Info.type risk_info)
           (List.length (flat_map (found text risk_info) ps)).
Proof.
  induction ps as [|p ps IH]; [reflexivity|]. simpl.
  rewrite map_app, length_app, repeat_app, IH. f_equal.
  unfold found. now destruct (List.find _ _).
Qed.

(** X3: the findings come category by category, in catalog order: the
    list of their categories is, for each catalog entry in turn, its
    category name repeated at most as often as the entry has patterns. *)
Theorem findings_grouped_by_category (text : str) :
  exists counts,
    Forall2 (fun kv n => (n <= List.length (Info.patterns (snd kv)))%nat)
            RISK_PATTERNS counts
    /\ map Clause.type (detect_risk_clauses text)
       = List.concat (map (fun kv_n => repeat (Info.type (snd (fst kv_n))) (snd kv_n))
                     (combine RISK_PATTERNS counts)).
Proof.
  rewrite detect_found.
  induction RISK_PATTERNS as [|[k info] items (counts & Hc & IH)].
  - exists []. split; [constructor | reflexivity].
  - exists (List.length (flat_map (found text info) (Info.patterns info)) :: counts).
    split.
    + constructor; [apply flat_map_found_length | exact Hc].
    + simpl. now rewrite map_app, IH, found_types.
Qed.

End DetectorMore.

(** ** Detection does not depend on letter case *)

Section CaseInsensitive.
Import PyStr.

Ltac bool_to_prop H :=
  repeat match type of H with
         | (_ || _) = true => apply orb_true_iff in H; destruct H as [H|H]
         | (_ && _) = true =>
             let H' := fresh H in
             apply andb_true_iff in H; destruct H as [H H']; try bool_to_prop H'
         | (_ =? _)%N = true => apply N.eqb_eq in H
         | (_ <=? _)%N = true => apply N.leb_le in H
         end.

Lemma not_space_between (c : char) :
  (32 < c < 133)%N \/ (160 < c < 5760)%N -> isspace c = false.
Proof.
  intros Hc. destruct (isspace c) eqn:E; [|reflexivity].
  unfold isspace, in_range in E. bool_to_prop E; lia.
Qed.

(** Lowercasing turns no code point into whitespace or a full stop, nor
    the other way round. *)
Lemma lower_char_keeps (c : char) :
  isspace (lower_char c) = isspace c
  /\ (lower_char c =? ord ".")%N = (c =? ord ".")%N.
Proof.
  unfold lower_char.
  destruct (in_range 65 90 c || in_range 192 222 c && negb (c =? 215)%N) eqn:E.
  - assert (Hc : (65 <= c <= 90)%N \/ (192 <= c <= 222)%N)
      by (unfold in_range in E; bool_to_prop E; lia).
    split.
    + rewrite !not_space_between; [reflexivity | lia | lia].
    + change (ord ".") with 46%N.
      replace (c + 32 =? 46)%N with false by (symmetry; apply N.eqb_neq; lia).
      symmetry. apply N.eqb_neq. lia.
  - destruct (N.eqb_spec c 304) as [->|_]; [split; reflexivity|].
    destruct (N.eqb_spec c 8490) as [->|_]; split; reflexivity.
Qed.

Lemma same_lower_keeps (c1 c2 : char) :
  same_lower c1 c2 ->
  isspace c1 = isspace c2 /\ (c1 =? ord ".")%N = (c2 =? ord ".")%N.
Proof.
  unfold same_lower, lower_cp.
  destruct (N.eqb_spec c1 304) as [->|H1], (N.eqb_spec c2 304) as [->|H2];
    try discriminate; [split; reflexivity|].
  intros E. injection E as E.
  destruct (lower_char_keeps c1) as [S1 D1], (lower_char_keeps c2) as [S2 D2].
  split.
  - transitivity (isspace (lower_char c1)); [now symmetry|]. now rewrite E.
  - transitivity (lower_char c1 =? ord ".")%N; [now symmetry|]. now rewrite E.
Qed.

Lemma inert_spec (c : char) :
  inert c = true <->
  (128 <= c)%N /\ isspace c = false
  /\ c <> 304%N /\ c <> 305%N /\ c <> 383%N /\ c <> 8490%N.
Proof.
  unfold inert. cbn [existsb].
  rewrite !andb_true_iff, !negb_true_iff, !orb_false_iff, N.leb_le, !N.eqb_neq.
  tauto.
Qed.

Lemma alike_keeps (c1 c2 : char) :
  alike c1 c2 ->
  isspace c1 = isspace c2 /\ (c1 =? ord ".")%N = (c2 =? ord ".")%N.
Proof.
  intros [E|[I1 I2]]; [now apply same_lower_keeps|].
  apply inert_spec in I1, I2.
  destruct I1 as (A1 & S1 & _), I2 as (A2 & S2 & _).
  split; [congruence|]. change (ord ".") with 46%N.
  transitivity false; [|symmetry]; apply N.eqb_neq; lia.
Qed.

Lemma inert_lower (c : char) : inert c = true -> inert (lower_char c) = true.
Proof.
  intros H. pose proof H as H'. apply inert_spec in H'.
  destruct H' as (A & S & N1 & N2 & N3 & N4).
  unfold lower_char.
  destruct (in_range 65 90 c || in_range 192 222 c && negb (c =? 215)%N) eqn:E.
  - assert (Hc : (192 <= c <= 222)%N)
      by (unfold in_range in E; bool_to_prop E; lia).
    apply inert_spec. split; [lia|]. split; [apply not_space_between; lia|].
    repeat split; lia.
  - destruct (N.eqb_spec c 304); [contradiction|].
    destruct (N.eqb_spec c 8490); [contradiction|]. exact H.
Qed.

Lemma lower_char_ascii (c : char) : (c < 128)%N -> (lower_char c < 128)%N.
Proof.
  intros H. unfold lower_char.
  destruct (in_range 65 90 c || in_range 192 222 c && negb (c =? 215)%N) eqn:E.
  - unfold in_range in E. bool_to_prop E; lia.
  - destruct (N.eqb_spec c 304); [lia|].
    destruct (N.eqb_spec c 8490); lia.
Qed.

(** An inert code point matches [.] and no ASCII literal. *)
Lemma inert_no_match (c : char) (it : Re.item) :
  inert c = true -> ascii_item it = true ->
  Re.item_matches true it c = match it with Re.Dot => true | Re.Char _ => false end.
Proof.
  intros H Hit. destruct it as [pc|]; cbn [Re.item_matches ascii_item] in *.
  - apply N.ltb_lt in Hit. apply lower_char_ascii in Hit.
    apply inert_lower, inert_spec in H.
    destruct H as (A & _ & _ & N2 & N3 & _).
    unfold Re.case_fixes.
    destruct (lower_char pc =? 105)%N; [|destruct (lower_char pc =? 115)%N];
      cbn [existsb]; rewrite ?orb_false_r;
      repeat (apply orb_false_iff; split); apply N.eqb_neq; lia.
  - apply inert_spec in H. destruct H as (A & _).
    apply negb_true_iff, N.eqb_neq. lia.
Qed.

Lemma same_match_refl (s : str) : Forall2 same_match s s.
Proof.
  induction s as [|d s IH]; constructor; [|exact IH].
  intros it _. reflexivity.
Qed.

(** The lowercase of two texts that are alike position by position is
    the same to every ASCII pattern. *)
Lemma lower_same_match (t1 t2 : str) :
  Forall2 alike t1 t2 -> Forall2 same_match (lower t1) (lower t2).
Proof.
  induction 1 as [|c1 c2 t1 t2 Hc _ IH]; [constructor|].
  unfold lower in *. cbn [flat_map]. apply Forall2_app; [|exact IH].
  destruct Hc as [E|[I1 I2]].
  - unfold same_lower in E. rewrite E. apply same_match_refl.
  - assert (L : forall c, inert c = true -> lower_cp c = [lower_char c]).
    { intros c I. apply inert_spec in I. destruct I as (_ & _ & N1 & _).
      unfold lower_cp. now destruct (N.eqb_spec c 304). }
    rewrite (L _ I1), (L _ I2). constructor; [|constructor].
    intros it Hit.
    now rewrite !inert_no_match by (assumption || now apply inert_lower).
Qed.

Lemma matches_same (r : Re.regex) :
  ascii_pattern r = true ->
  forall s1 s2, Forall2 same_match s1 s2 ->
                Re.matches true r s1 = Re.matches true r s2.
Proof.
  induction r as [|[it q] r IH]; intros Hr s1 s2 H; [reflexivity|].
  cbn [ascii_pattern forallb fst] in Hr.
  apply andb_true_iff in Hr. destruct Hr as [Hit Hr].
  specialize (IH Hr). destruct q.
  - rewrite !matches_once. destruct H as [|c1 c2 s1 s2 Hc Hs]; [reflexivity|].
    now rewrite (Hc it Hit), (IH _ _ Hs).
  - rewrite !matches_optional, (IH _ _ H).
    destruct H as [|c1 c2 s1 s2 Hc Hs]; [reflexivity|].
    now rewrite (Hc it Hit), (IH _ _ Hs).
  - induction H as [|c1 c2 s1 s2 Hc Hs IHs].
    + reflexivity.
    + rewrite (matches_star true it r (c1 :: s1)),
        (matches_star true it r (c2 :: s2)).
      rewrite (Hc it Hit), IHs.
      now rewrite (IH (c1 :: s1) (c2 :: s2) (Forall2_cons _ _ Hc Hs)).
Qed.

Lemma scan_cons (ic : bool) (r : Re.regex) (pos skip : nat) (c : char) (s : str) :
  Re.scan ic r pos skip (c :: s) =
  match skip with
  | S k => Re.scan ic r (S pos) k s
  | O =>
      match Re.match_here ic r false (c :: s) with
      | Some (S k) => (pos, pos + S k)%nat :: Re.scan ic r (S pos) k s
      | Some O =>
          (pos, pos) ::
          match Re.match_here ic r true (c :: s) with
          | Some (S k) => (pos, pos + S k)%nat :: Re.scan ic r (S pos) k s
          | _ => Re.scan ic r (S pos) 0 s
          end
      | None => Re.scan ic r (S pos) 0 s
      end
  end.
Proof. reflexivity. Qed.

Lemma scan_same (r : Re.regex) :
  ascii_pattern r = true ->
  forall s1 s2, Forall2 same_match s1 s2 ->
  forall pos skip, Re.scan true r pos skip s1 = Re.scan true r pos skip s2.
Proof.
  intros Hr s1 s2 H.
  induction H as [|c1 c2 s1 s2 Hc Hs IH]; intros pos skip; [reflexivity|].
  rewrite !scan_cons. unfold Re.match_here.
  rewrite (matches_same r Hr (c1 :: s1) (c2 :: s2) (Forall2_cons _ _ Hc Hs)).
  destruct skip as [|k]; [|apply IH].
  destruct (List.find _ _) as [[|k]|]; rewrite ?IH; [|reflexivity|reflexivity].
  destruct (List.find _ _) as [[|k]|]; now rewrite ?IH.
Qed.

Lemma catalog_ascii :
  forallb (fun p => ascii_pattern (Re.compile p)) all_patterns = true.
Proof. vm_compute. reflexivity. Qed.

Lemma find_pointwise {A : Type} (f g : A -> bool) (l : list A) :
  (forall x, f x = g x) -> List.find f l = List.find g l.
Proof.
  intros H. induction l as [|x l IH]; [reflexivity|]. simpl.
  now rewrite H, IH.
Qed.

Lemma Forall2_flat_map {A B C : Type} (R : B -> C -> Prop)
      (f : A -> list B) (g : A -> list C) (l : list A) :
  (forall x, In x l -> Forall2 R (f x) (g x)) ->
  Forall2 R (flat_map f l) (flat_map g l).
Proof.
  induction l as [|x l IH]; intros H; [constructor|]. cbn [flat_map].
  apply Forall2_app; [apply H; now left|].
  apply IH. intros y Hy. apply H. now right.
Qed.

Section Related.
Variable R : char -> char -> Prop.
Hypothesis R_alike : forall c1 c2, R c1 c2 -> alike c1 c2.

Lemma rel_rev (s1 s2 : str) : Forall2 R s1 s2 -> Forall2 R (rev s1) (rev s2).
Proof.
  induction 1 as [|c1 c2 s1 s2 Hc _ IH]; [constructor|]. cbn [rev].
  apply Forall2_app; [exact IH|]. now repeat constructor.
Qed.

Lemma rel_skipn (n : nat) :
  forall s1 s2, Forall2 R s1 s2 -> Forall2 R (skipn n s1) (skipn n s2).
Proof.
  induction n as [|n IH]; intros s1 s2 H; [exact H|].
  destruct H; cbn [skipn]; [constructor|]. now apply IH.
Qed.

Lemma rel_firstn (n : nat) :
  forall s1 s2, Forall2 R s1 s2 -> Forall2 R (firstn n s1) (firstn n s2).
Proof.
  induction n as [|n IH]; intros s1 s2 H; [constructor|].
  destruct H; cbn [firstn]; constructor; [assumption|]. now apply IH.
Qed.

Lemma rel_slice (s1 s2 : str) (lo hi : nat) :
  Forall2 R s1 s2 -> Forall2 R (slice s1 lo hi) (slice s2 lo hi).
Proof. intros H. unfold slice. now apply rel_firstn, rel_skipn. Qed.

Lemma rel_lstrip (s1 s2 : str) :
  Forall2 R s1 s2 -> Forall2 R (lstrip s1) (lstrip s2).
Proof.
  induction 1 as [|c1 c2 s1 s2 Hc Hs IH]; [constructor|]. cbn [lstrip].
  rewrite (proj1 (alike_keeps _ _ (R_alike _ _ Hc))).
  destruct (isspace c2); [exact IH | now constructor].
Qed.

Lemma rel_strip (s1 s2 : str) :
  Forall2 R s1 s2 -> Forall2 R (strip s1) (strip s2).
Proof.
  intros H. unfold strip, rstrip.
  now apply rel_rev, rel_lstrip, rel_rev, rel_lstrip.
Qed.

Lemma rel_index_of (s1 s2 : str) :
  Forall2 R s1 s2 -> index_of (ord ".") s1 = index_of (ord ".") s2.
Proof.
  induction 1 as [|c1 c2 s1 s2 Hc _ IH]; [reflexivity|]. cbn [index_of].
  now rewrite (proj2 (alike_keeps _ _ (R_alike _ _ Hc))), IH.
Qed.

Lemma rel_last_index_of (s1 s2 : str) :
  Forall2 R s1 s2 -> last_index_of (ord ".") s1 = last_index_of (ord ".") s2.
Proof.
  induction 1 as [|c1 c2 s1 s2 Hc _ IH]; [reflexivity|]. cbn [last_index_of].
  now rewrite (proj2 (alike_keeps _ _ (R_alike _ _ Hc))), IH.
Qed.

(** The sentence around a span is cut at the same places in both texts. *)
Lemma rel_sentence_of (t1 t2 : str) (m : nat * nat) :
  Forall2 R t1 t2 -> Forall2 R (sentence_of t1 m) (sentence_of t2 m).
Proof.
  intros H.
  assert (Hs : forall a, sentence_start t1 a = sentence_start t2 a).
  { intros a. unfold sentence_start, rfind.
    now rewrite (rel_last_index_of _ _ (rel_slice _ _ 0 a H)). }
  assert (He : forall b, sentence_end t1 b = sentence_end t2 b).
  { intros b. unfold sentence_end, find.
    now rewrite (rel_index_of _ _ (rel_skipn b _ _ H)), (Forall2_length H). }
  unfold sentence_of. rewrite Hs, He. now apply rel_strip, rel_slice.
Qed.

Lemma rel_found (t1 t2 : str) (risk_info : Info.t) (p : string) :
  ascii_pattern (Re.compile p) = true -> Forall2 R t1 t2 ->
  Forall2 (same_clause R) (found t1 risk_info p) (found t2 risk_info p).
Proof.
  intros Hp H. unfold found, Re.finditer.
  rewrite (scan_same _ Hp _ _
             (lower_same_match _ _ (Forall2_impl _ R_alike H)) 0 0)%nat.
  assert (Eq : forall m, qualifies t1 m = qualifies t2 m).
  { intros m. unfold qualifies.
    now rewrite (Forall2_length (rel_sentence_of _ _ m H)). }
  rewrite (find_pointwise _ _ _ Eq).
  destruct (List.find _ _) as [m|]; constructor; [|constructor].
  unfold same_clause, clause_of. cbn.
  repeat split. now apply rel_sentence_of.
Qed.

End Related.

(** X4: detection does not depend on letter case.  Let [R] relate only
    code points that are alike: with the same lowercase, or both inert,
    as the two cases of a letter outside ASCII are.  Two texts related by
    [R] position by position give findings in the same number and order,
    with the same type, severity and explanation, and with sentences
    of the same length that are again related by [R] position by
    position. *)
Theorem detection_ignores_case (R : char -> char -> Prop) (t1 t2 : str) :
  (forall c1 c2, R c1 c2 -> alike c1 c2) ->
  Forall2 R t1 t2 ->
  Forall2 (same_clause R) (detect_risk_clauses t1) (detect_risk_clauses t2).
Proof.
  intros R_alike H. rewrite !detect_found.
  apply Forall2_flat_map. intros [k info] Hk.
  apply Forall2_flat_map. intros p Hp. cbn [snd] in *.
  apply (rel_found R R_alike); [|exact H].
  pose proof catalog_ascii as Hc. rewrite forallb_forall in Hc.
  apply Hc. now apply (in_all_patterns k info).
Qed.

Lemma detection_ignores_case_witness :
  Forall2 (same_clause alike)
          (detect_risk_clauses sigma_refund_text)
          (detect_risk_clauses shouted_sigma_refund_text).
Proof.
  apply (detection_ignores_case alike sigma_refund_text
                                shouted_sigma_refund_text); [tauto|].
  let l1 := eval vm_compute in sigma_refund_text in
  let l2 := eval vm_compute in shouted_sigma_refund_text in
  change (Forall2 alike l1 l2).
  repeat (constructor;
          [first [left; vm_compute; reflexivity
                 | right; split; vm_compute; reflexivity]|]).
  constructor.
Defined.

End CaseInsensitive.

(** * Further properties of the scores *)

Section ComplexityMore.
Import PyStr.

Lemma split_aux_nil (s : str) :
  forall cur, split_aux cur s = [] -> cur = [] /\ forallb isspace s = true.
Proof.
  induction s as [|c s IH]; intros cur H; simpl in *.
  - destruct cur; [tauto | discriminate].
  - destruct (isspace c).
    + destruct cur; [|discriminate]. now destruct (IH [] H).
    + destruct (IH _ H) as [E _]. discriminate E.
Qed.

Lemma split_runs_of_spaces (sep : char -> bool) (s : str) :
  forall cur in_sep,
    forallb isspace cur = true -> forallb isspace s = true ->
    filter (fun f => truthy (strip f)) (Re.split_runs sep cur in_sep s) = [].
Proof.
  assert (Hblank : forall cur, forallb isspace cur = true ->
                               truthy (strip (rev cur)) = false).
  { intros cur H.
    assert (E : strip (rev cur) = []).
    { apply strip_nil_iff, forallb_forall. intros x Hx.
      rewrite forallb_forall in H. apply H. now apply in_rev. }
    now rewrite E. }
  induction s as [|c s IH]; intros cur in_sep Hc Hs; simpl.
  - now rewrite (Hblank cur Hc).
  - simpl in Hs. apply andb_true_iff in Hs. destruct Hs as [Hc' Hs].
    destruct (sep c).
    + destruct in_sep; [now apply IH|].
      simpl. rewrite (Hblank cur Hc). now apply IH.
    + apply IH; [|exact Hs]. simpl. now rewrite Hc', Hc.
Qed.

(** A text with a sentence has a word, so the guard on [words] in line
    171 is never the branch taken after line 157. *)
Lemma sentence_needs_word (text : str) :
  sentence_fragments text <> [] -> split text <> [].
Proof.
  intros H E. apply H.
  destruct (split_aux_nil text [] E) as [_ Hs].
  now apply split_runs_of_spaces.
Qed.

Lemma len_pos {A : Type} (l : list A) : l <> [] -> 0 < len l.
Proof.
  destruct l as [|x l]; [congruence|]. intros _.
  unfold len, Qlt. simpl. lia.
Qed.

Lemma len_nonneg {A : Type} (l : list A) : 0 <= len l.
Proof. unfold len, Qle. simpl. lia. Qed.

Lemma complexity_closed_form (text : str) :
  sentence_fragments text <> [] ->
  calculate_complexity_score text =
  Some (Qmin ((Qmin (avg_words_per_sentence text / 15) 2
               + Qmin (legal_density text / 2) 2) * (5 # 2)) 10).
Proof.
  intros Hs. pose proof (sentence_needs_word text Hs) as Hw.
  unfold calculate_complexity_score, avg_words_per_sentence, legal_density.
  fold (sentence_fragments text).
  destruct (sentence_fragments text) as [|f fs]; [congruence|].
  destruct (split text) as [|w ws]; [congruence|].
  cbn [map truthy negb]. now rewrite !truediv_cons.
Qed.

Lemma avg_words_pos (text : str) :
  sentence_fragments text <> [] -> 0 < avg_words_per_sentence text.
Proof.
  intros Hs. unfold avg_words_per_sentence.
  apply Qlt_shift_div_l.
  - apply len_pos. destruct (sentence_fragments text); [congruence | discriminate].
  - rewrite Qmult_0_l. apply len_pos. now apply sentence_needs_word.
Qed.

Lemma legal_density_nonneg (text : str) : 0 <= legal_density text.
Proof.
  unfold legal_density. destruct (split text) as [|w ws]; [discriminate|].
  cbn [truthy].
  apply Qmult_le_0_compat; [|discriminate].
  apply Qle_shift_div_l.
  - apply len_pos. discriminate.
  - rewrite Qmult_0_l. apply len_nonneg.
Qed.

Ltac split_min :=
  unfold Qdiv in *;
  change (/ 15) with (1 # 15) in *; change (/ 2) with (1 # 2) in *;
  change (/ 10) with (1 # 10) in *; change (/ 1000) with (1 # 1000) in *;
  repeat match goal with
         | |- context [Qmin ?a ?b] =>
             let H := fresh in
             destruct (Q.min_spec a b) as [[? H]|[? H]]; rewrite H in *; clear H
         | H : context [Qmin ?a ?b] |- _ =>
             let H' := fresh in
             destruct (Q.min_spec a b) as [[? H']|[? H']]; rewrite H' in *; clear H'
         end.

(** X5: the complexity score is produced for every text and lies in
    (0, 10]: positive and at most 10.  It is not bounded below by 1: some
    text scores less than 1. *)
Theorem complexity_range (text : str) :
  (exists c, calculate_complexity_score text = Some c /\ 0 < c /\ c <= 10)
  /\ (exists low c, calculate_complexity_score low = Some c /\ c < 1).
Proof.
  split.
  - destruct (sentence_fragments text) as [|f fs] eqn:E.
    + exists 1. split; [now apply complexity_no_sentences|].
      split; reflexivity || discriminate.
    + assert (Hs : sentence_fragments text <> []) by (rewrite E; discriminate).
      eexists. split; [apply (complexity_closed_form text Hs)|].
      pose proof (avg_words_pos text Hs) as Ha.
      pose proof (legal_density_nonneg text) as Hd.
      split; split_min; lra.
  - exists simple_text. eexists. split; [vm_compute; reflexivity|reflexivity].
Qed.

(** X6: with a sentence in both texts, a text with at least the average
    sentence length and at least the legal-term density of another has at
    least its complexity score. *)
Theorem complexity_monotone (t1 t2 : str) (c1 c2 : Q) :
  sentence_fragments t1 <> [] -> sentence_fragments t2 <> [] ->
  avg_words_per_sentence t1 <= avg_words_per_sentence t2 ->
  legal_density t1 <= legal_density t2 ->
  calculate_complexity_score t1 = Some c1 ->
  calculate_complexity_score t2 = Some c2 ->
  c1 <= c2.
Proof.
  intros H1 H2 Ha Hd E1 E2.
  rewrite (complexity_closed_form t1 H1) in E1.
  rewrite (complexity_closed_form t2 H2) in E2.
  injection E1 as <-. injection E2 as <-.
  split_min; lra.
Qed.

Lemma complexity_monotone_witness :
  exists c1 c2,
    calculate_complexity_score simple_text = Some c1
    /\ calculate_complexity_score legal_text = Some c2 /\ c1 <= c2.
Proof.
  do 2 eexists. split; [vm_compute; reflexivity|].
  split; [vm_compute; reflexivity|].
  apply (complexity_monotone simple_text legal_text).
  - vm_compute. discriminate.
  - vm_compute. discriminate.
  - vm_compute. discriminate.
  - vm_compute. discriminate.
  - vm_compute. reflexivity.
  - vm_compute. reflexivity.
Defined.

(** X7: with a sentence in the text, the score is exactly 10 if and only
    if the average sentence has at least 30 words and at least 4 percent
    of the words are legal terms. *)
Theorem complexity_ten_iff (text : str) (c : Q) :
  sentence_fragments text <> [] ->
  calculate_complexity_score text = Some c ->
  (c == 10 <-> 30 <= avg_words_per_sentence text /\ 4 <= legal_density text).
Proof.
  intros Hs E. rewrite (complexity_closed_form text Hs) in E.
  injection E as <-.
  split.
  - intros H. split_min; split; lra.
  - intros [Ha Hd]. split_min; lra.
Qed.

Lemma complexity_ten_iff_witness :
  exists c, calculate_complexity_score dense_text = Some c /\ c == 10.
Proof.
  eexists. split; [vm_compute; reflexivity|].
  apply (complexity_ten_iff dense_text).
  - vm_compute. discriminate.
  - vm_compute. reflexivity.
  - split; vm_compute; discriminate.
Defined.

End ComplexityMore.

Section RiskMore.

Lemma for_clauses_bounds (fs : list Clause.t) :
  (Z.of_nat (List.length fs) <= for_clauses fs 0 <= 3 * Z.of_nat (List.length fs))%Z.
Proof.
  induction fs as [|f fs IH]; [simpl; lia|].
  cbn [for_clauses List.length].
  destruct (String.eqb _ "High"); [|destruct (String.eqb _ "Medium")];
    match goal with
    | |- context [for_clauses fs ?a] => rewrite (for_clauses_shift fs a)
    end; lia.
Qed.

Lemma for_clauses_perm (fs gs : list Clause.t) :
  Permutation fs gs -> for_clauses fs 0 = for_clauses gs 0.
Proof.
  induction 1 as [|f fs gs _ IH|f g fs|fs gs hs _ IH1 _ IH2].
  - reflexivity.
  - cbn [for_clauses].
    destruct (String.eqb _ "High"); [|destruct (String.eqb _ "Medium")];
      match goal with
      | |- for_clauses fs ?a = for_clauses gs ?a =>
          rewrite (for_clauses_shift fs a), (for_clauses_shift gs a), IH;
          reflexivity
      end.
  - cbn [for_clauses].
    destruct (String.eqb (Clause.severity g) "High");
      [|destruct (String.eqb (Clause.severity g) "Medium")];
      (destruct (String.eqb (Clause.severity f) "High");
       [|destruct (String.eqb (Clause.severity f) "Medium")]);
      (f_equal; lia).
  - now rewrite IH1.
Qed.

Ltac split_min :=
  unfold Qdiv in *;
  change (/ 10) with (1 # 10) in *; change (/ 1000) with (1 # 1000) in *;
  repeat match goal with
         | |- context [Qmin ?a ?b] =>
             let H := fresh in
             destruct (Q.min_spec a b) as [[? H]|[? H]]; rewrite H in *; clear H
         | H : context [Qmin ?a ?b] |- _ =>
             let H' := fresh in
             destruct (Q.min_spec a b) as [[? H']|[? H']]; rewrite H' in *; clear H'
         end.

Lemma inject_Z_le (a b : Z) : (a <= b)%Z -> inject_Z a <= inject_Z b.
Proof. intros H. now rewrite <- Zle_Qle. Qed.

(** X8: the risk score never exceeds 10; with a non-negative complexity
    and word count it is at least 0.6 per finding, up to the cap: two
    findings already give 1.2. *)
Theorem risk_score_bounds (fs : list Clause.t) (c : Q) (w : Z) :
  calculate_risk_score fs c w <= 10
  /\ (0 <= c -> (0 <= w)%Z ->
      Qmin (inject_Z (Z.of_nat (List.length fs)) * (6 # 10)) 10
      <= calculate_risk_score fs c w).
Proof.
  split; [apply Q.le_min_r|]. intros Hc Hw.
  unfold calculate_risk_score.
  pose proof (inject_Z_le _ _ (proj1 (for_clauses_bounds fs))) as Hn.
  pose proof (inject_Z_le _ _ Hw) as Hw'. change (inject_Z 0) with 0 in Hw'.
  split_min; lra.
Qed.

Lemma risk_score_bounds_witness :
  Qmin (inject_Z (Z.of_nat 2) * (6 # 10)) 10
  <= calculate_risk_score [Clause.mk [] "" "Low" ""; Clause.mk [] "" "Low" ""] 3 500.
Proof.
  apply (risk_score_bounds [Clause.mk [] "" "Low" ""; Clause.mk [] "" "Low" ""] 3 500).
  - discriminate.
  - lia.
Defined.

(** X9: the order of the findings does not matter to the risk score. *)
Theorem risk_score_order_free (fs gs : list Clause.t) (c : Q) (w : Z) :
  Permutation fs gs ->
  calculate_risk_score fs c w = calculate_risk_score gs c w.
Proof.
  intros H. unfold calculate_risk_score. now rewrite (for_clauses_perm fs gs H).
Qed.

Lemma risk_score_order_free_witness :
  calculate_risk_score [Clause.mk [] "" "High" ""; Clause.mk [] "" "Low" ""] 3 500
  = calculate_risk_score [Clause.mk [] "" "Low" ""; Clause.mk [] "" "High" ""] 3 500.
Proof.
  apply risk_score_order_free. apply perm_swap.
Defined.

(** X10: more findings, a higher complexity or a higher word count never
    lower the risk score. *)
Theorem risk_score_monotone (fs more : list Clause.t) (c c' : Q) (w w' : Z) :
  c <= c' -> (w <= w')%Z ->
  calculate_risk_score fs c w <= calculate_risk_score (fs ++ more) c' w'.
Proof.
  intros Hc Hw. unfold calculate_risk_score.
  rewrite for_clauses_app, (for_clauses_shift more).
  pose proof (proj1 (for_clauses_bounds more)) as Hm.
  assert (Hn : inject_Z (for_clauses fs 0)
               <= inject_Z (for_clauses fs 0 + for_clauses more 0))
    by (apply inject_Z_le; lia).
  pose proof (inject_Z_le _ _ Hw) as Hw'.
  split_min; lra.
Qed.

Lemma risk_score_monotone_witness :
  calculate_risk_score [Clause.mk [] "" "Low" ""] 3 500
  <= calculate_risk_score ([Clause.mk [] "" "Low" ""] ++ [Clause.mk [] "" "Medium" ""]) 8 2000.
Proof.
  apply (risk_score_monotone [Clause.mk [] "" "Low" ""] [Clause.mk [] "" "Medium" ""]
                             3 8 500 2000).
  - discriminate.
  - lia.
Defined.

(** X11: the score saturates. From 2000 words on the word count no
    longer matters, and once the summed weights of the findings reach 17
    (six High findings, say) the score is exactly 10 for any non-negative
    complexity and word count. *)
Theorem risk_score_saturates (fs : list Clause.t) (c : Q) (w : Z) :
  ((2000 <= w)%Z ->
   calculate_risk_score fs c w == calculate_risk_score fs c 2000)
  /\ ((17 <= for_clauses fs 0)%Z -> 0 <= c -> (0 <= w)%Z ->
      calculate_risk_score fs c w == 10).
Proof.
  split.
  - intros Hw. unfold calculate_risk_score.
    pose proof (inject_Z_le _ _ Hw) as Hw'. change (inject_Z 2000) with 2000 in *.
    split_min; lra.
  - intros Hr Hc Hw. unfold calculate_risk_score.
    pose proof (inject_Z_le _ _ Hr) as Hr'. change (inject_Z 17) with 17 in Hr'.
    pose proof (inject_Z_le _ _ Hw) as Hw'. change (inject_Z 0) with 0 in Hw'.
    split_min; lra.
Qed.

Lemma risk_score_saturates_witness :
  calculate_risk_score [] 5 3000 == calculate_risk_score [] 5 2000
  /\ calculate_risk_score (repeat (Clause.mk [] "" "High" "") 6) 5 100 == 10.
Proof.
  split.
  - apply (proj1 (risk_score_saturates [] 5 3000)). lia.
  - apply (proj2 (risk_score_saturates (repeat (Clause.mk [] "" "High" "") 6) 5 100)).
    + vm_compute. discriminate.
    + discriminate.
    + lia.
Defined.

End RiskMore.

(** * The detector feeding the risk score *)

Section Pipeline.
Import PyStr.

Lemma weights_of_high_medium (fs : list Clause.t) :
  Forall (fun f => Clause.severity f = "High"%string
                   \/ Clause.severity f = "Medium"%string) fs ->
  exists risk,
    sum_of_weights fs = Some risk
    /\ (2 * Z.of_nat (List.length fs) <= risk <= 3 * Z.of_nat (List.length fs))%Z.
Proof.
  induction 1 as [|f fs Hf _ (risk & E & Hr)].
  - exists 0%Z. split; [reflexivity | simpl; lia].
  - cbn [sum_of_weights List.length]. rewrite E.
    destruct Hf as [-> | ->]; cbn [weight String.eqb Ascii.eqb Bool.eqb];
      eexists; (split; [reflexivity | lia]).
Qed.

Lemma detect_high_or_medium (text : str) :
  Forall (fun f => Clause.severity f = "High"%string
                   \/ Clause.severity f = "Medium"%string)
         (detect_risk_clauses text).
Proof.
  apply Forall_forall. intros f Hf.
  destruct (detect_in_clause _ _ Hf) as (k & info & p & m & Hk & _ & _ & _ & ->).
  simpl.
  assert (H : forallb (fun kv => String.eqb (Info.severity (snd kv)) "High"
                                 || String.eqb (Info.severity (snd kv)) "Medium")
                      RISK_PATTERNS = true) by reflexivity.
  rewrite forallb_forall in H. specialize (H _ Hk). simpl in H.
  apply orb_true_iff in H.
  destruct H as [H|H]; apply String.eqb_eq in H; tauto.
Qed.

(** X12: on the output of the detector the risk scorer never takes its
    default branch: every finding has severity "High" and adds 3 to the
    running total, or has severity "Medium" and adds 2.  So the total is
    the sum of the weights, it lies between twice and three times the
    number of findings, and the score is the documented formula over
    it. *)
Theorem detector_output_scored (text : str) (c : Q) (w : Z) :
  Forall (fun f =>
            (Clause.severity f = "High"%string
             /\ weight (Clause.severity f) = Some 3%Z
             /\ forall rest acc,
                 for_clauses (f :: rest) acc = for_clauses rest (acc + 3))
            \/ (Clause.severity f = "Medium"%string
                /\ weight (Clause.severity f) = Some 2%Z
                /\ forall rest acc,
                    for_clauses (f :: rest) acc = for_clauses rest (acc + 2)))
         (detect_risk_clauses text)
  /\ exists risk,
      sum_of_weights (detect_risk_clauses text) = Some risk
      /\ for_clauses (detect_risk_clauses text) 0 = risk
      /\ (2 * Z.of_nat (List.length (detect_risk_clauses text)) <= risk
          <= 3 * Z.of_nat (List.length (detect_risk_clauses text)))%Z
      /\ calculate_risk_score (detect_risk_clauses text) c w == risk_formula risk c w.
Proof.
  pose proof (detect_high_or_medium text) as HF.
  split.
  { eapply Forall_impl; [|exact HF].
    intros f [E|E]; [left|right]; rewrite E;
      (split; [reflexivity|]); (split; [reflexivity|]);
      intros rest acc; cbn [for_clauses]; rewrite E; reflexivity. }
  destruct (weights_of_high_medium _ HF) as (risk & E & Hr).
  exists risk. split; [exact E|].
  split; [exact (for_clauses_weights _ risk E)|]. split; [exact Hr|].
  unfold calculate_risk_score, risk_formula.
  rewrite (for_clauses_weights _ risk E).
  apply Q.min_compat; [ring | reflexivity].
Qed.

End Pipeline.

(** * The analyzer and the handlers *)

Section AnalyzerFacts.
Import PyStr.

Lemma split_on_nonempty (sep : char) (s : str) :
  forall cur, split_on sep cur s <> [].
Proof. induction s as [|c s IH]; intros cur; simpl; [discriminate|].
       destruct (c =? sep)%N; [discriminate | apply IH]. Qed.

Lemma split_on_free (sep : char) (s : str) :
  forall cur, ~ In sep cur ->
              Forall (fun piece => ~ In sep piece) (split_on sep cur s).
Proof.
  induction s as [|c s IH]; intros cur Hcur; simpl.
  - constructor; [|constructor]. intros H. apply Hcur. now apply in_rev.
  - destruct (N.eqb_spec c sep) as [->|Hne].
    + constructor; [|apply IH; tauto].
      intros H. apply Hcur. now apply in_rev.
    + apply IH. intros [E|H]; [congruence | tauto].
Qed.

Lemma strip_free (sep : char) (s : str) : ~ In sep s -> ~ In sep (strip s).
Proof.
  intros H Hs. apply H. destruct (strip_infix s) as (pre & post & E).
  rewrite E. apply in_or_app. right. apply in_or_app. now left.
Qed.

(** X13: the key terms are at least one and at most 15 strings, each
    trimmed and free of commas, whatever the model answers and also when
    it is missing or fails. *)
Theorem key_terms_shape (self : Analyzer.t) (text : str) :
  (1 <= List.length (Analyzer.extract_key_terms self text) <= 15)%nat
  /\ Forall (fun term => strip term = term /\ ~ In (ord ",") term)
            (Analyzer.extract_key_terms self text).
Proof.
  unfold Analyzer.extract_key_terms.
  destruct (Analyzer.model self) as [gen|].
  - destruct (gen _) as [e|response_text].
    + split; [simpl; lia|]. constructor; [|constructor].
      split; [reflexivity|]. vm_compute. intuition discriminate.
    + split.
      * rewrite length_firstn, length_map.
        pose proof (split_on_nonempty (ord ",") response_text []) as Hne.
        destruct (split_on (ord ",") [] response_text); [congruence|].
        simpl List.length. lia.
      * apply Forall_forall. intros term Hin.
        apply (In_nth_error) in Hin. destruct Hin as [n Hn].
        assert (Hin : In term (map strip (split_on (ord ",") [] response_text))).
        { apply nth_error_In with n. rewrite nth_error_firstn in Hn.
          destruct (n <? 15)%nat; [exact Hn | discriminate]. }
        apply in_map_iff in Hin. destruct Hin as (piece & <- & Hp).
        split; [apply strip_idempotent|].
        apply strip_free.
        pose proof (split_on_free (ord ",") response_text [] (fun H => H)) as Hf.
        rewrite Forall_forall in Hf. now apply Hf.
  - split; [simpl; lia|]. constructor; [|constructor].
    split; [reflexivity|]. vm_compute. intuition discriminate.
Qed.






Lemma long_text_has_word (text : str) :
  (50 <= List.length (strip text))%nat -> split text <> [] /\ text <> [].
Proof.
  intros H. split.
  - intros E. destruct (split_aux_nil text [] E) as [_ Hs].
    apply strip_nil_iff in Hs. rewrite Hs in H. simpl in H. lia.
  - intros ->. simpl in H. lia.
Qed.

Lemma analyze_long (self : Analyzer.t) (env : Env) (file_path filename text : str) :
  Analyzer.extract_text self env file_path filename = inr text ->
  (50 <= List.length (strip text))%nat ->
  exists c,
    calculate_complexity_score text = Some c
    /\ Analyzer.analyze_document self env file_path filename
       = (let self' := Analyzer.mk (Analyzer.model self) (Analyzer.Text text) in
          let word_count := Z.of_nat (List.length (split text)) in
          let risk_clauses := detect_risk_clauses text in
          (self',
           inr (Analyzer.mkAnalysis word_count c risk_clauses
                  (calculate_risk_score risk_clauses c word_count)
                  (Analyzer.generate_summary self' text)
                  (Analyzer.simplify_text self' text)
                  (Analyzer.extract_key_terms self' text)
                  (if (1000 <? List.length text)%nat
                   then slice text 0 1000 ++ of_string "..."
                   else text)))).
Proof.
  intros E Hlen. unfold Analyzer.analyze_document. rewrite E.
  destruct (long_text_has_word text Hlen) as [_ Hne].
  destruct text as [|ch text]; [congruence|]. cbn [truthy negb orb].
  destruct (Nat.ltb_spec (List.length (strip (ch :: text))) 50); [lia|].
  destruct (complexity_total (ch :: text)) as [c Hc].
  exists c. split; [exact Hc|]. now rewrite Hc.
Qed.

Lemma analyze_short (self : Analyzer.t) (env : Env) (file_path filename text : str) :
  Analyzer.extract_text self env file_path filename = inr text ->
  (List.length (strip text) < 50)%nat ->
  Analyzer.analyze_document self env file_path filename
  = (self, inl (of_string "Analysis failed: Document appears to be empty or too short to analyze")).
Proof.
  intros E Hlen. unfold Analyzer.analyze_document. rewrite E.
  apply Nat.ltb_lt in Hlen. rewrite Hlen, orb_true_r. reflexivity.
Qed.

Lemma analyze_unread (self : Analyzer.t) (env : Env) (file_path filename e : str) :
  Analyzer.extract_text self env file_path filename = inl e ->
  Analyzer.analyze_document self env file_path filename
  = (self, inl (of_string "Analysis failed: " ++ e)).
Proof. intros E. unfold Analyzer.analyze_document. now rewrite E. Qed.

(** Every outcome of [analyze_document] is one of the three above. *)
Lemma analyze_cases (self : Analyzer.t) (env : Env) (file_path filename : str) :
  (exists text,
      Analyzer.extract_text self env file_path filename = inr text
      /\ (50 <= List.length (strip text))%nat)
  \/ (exists e, Analyzer.analyze_document self env file_path filename
                = (self, inl (of_string "Analysis failed: " ++ e))).
Proof.
  destruct (Analyzer.extract_text self env file_path filename) as [e|text] eqn:E.
  - right. exists e. now apply analyze_unread.
  - destruct (Nat.le_gt_cases 50 (List.length (strip text))) as [H|H].
    + left. now exists text.
    + right. eexists. rewrite (analyze_short _ _ _ _ text E H). reflexivity.
Qed.

(** X15: what [analyze_document] does is decided by the extraction and by
    the length of the trimmed text alone. A text of 50 or more code
    points after trimming is always analysed and becomes the document the
    analyzer remembers; a shorter one is refused with a fixed message; a
    failed extraction is reported with its message; both failures leave
    the remembered document as it was. *)
Theorem analysis_outcome (self : Analyzer.t) (env : Env) (file_path filename : str) :
  (forall text,
      Analyzer.extract_text self env file_path filename = inr text ->
      (50 <= List.length (strip text))%nat ->
      exists a,
        Analyzer.analyze_document self env file_path filename
        = (Analyzer.mk (Analyzer.model self) (Analyzer.Text text), inr a))
  /\ (forall text,
        Analyzer.extract_text self env file_path filename = inr text ->
        (List.length (strip text) < 50)%nat ->
        Analyzer.analyze_document self env file_path filename
        = (self, inl (of_string "Analysis failed: Document appears to be empty or too short to analyze")))
  /\ (forall e,
        Analyzer.extract_text self env file_path filename = inl e ->
        Analyzer.analyze_document self env file_path filename
        = (self, inl (of_string "Analysis failed: " ++ e))).
Proof.
  split; [|split].
  - intros text E Hlen.
    destruct (analyze_long self env file_path filename text E Hlen) as (c & _ & ->).
    eexists. reflexivity.
  - intros text. apply analyze_short.
  - intros e. apply analyze_unread.
Qed.

Lemma analysis_outcome_witness :
  exists a,
    Analyzer.analyze_document (Analyzer.init (inr echo_model))
      (mkEnv None (fun _ => inl []) (fun _ => inr refund_text))
      (of_string "/tmp/terms.txt") (of_string "terms.txt")
    = (Analyzer.mk (Some echo_model) (Analyzer.Text refund_text), inr a).
Proof.
  apply (proj1 (analysis_outcome (Analyzer.init (inr echo_model))
                  (mkEnv None (fun _ => inl []) (fun _ => inr refund_text))
                  (of_string "/tmp/terms.txt") (of_string "terms.txt")) refund_text).
  - vm_compute. reflexivity.
  - vm_compute. lia.
Defined.

End AnalyzerFacts.

Section AnalysisResults.
Import PyStr.

Ltac split_min :=
  unfold Qdiv in *;
  change (/ 10) with (1 # 10) in *; change (/ 1000) with (1 # 1000) in *;
  repeat match goal with
         | |- context [Qmin ?a ?b] =>
             let H := fresh in
             destruct (Q.min_spec a b) as [[? H]|[? H]]; rewrite H in *; clear H
         end.

Lemma detect_length (text : str) :
  (List.length (detect_risk_clauses text) <= 29)%nat.
Proof.
  rewrite detect_found. change 29%nat with (List.length all_patterns).
  unfold all_patterns.
  induction RISK_PATTERNS as [|[k info] items IH]; simpl; [lia|].
  rewrite !length_app.
  pose proof (flat_map_found_length text info (Info.patterns info)). lia.
Qed.

Lemma complexity_bounds (text : str) (c : Q) :
  calculate_complexity_score text = Some c -> 0 < c /\ c <= 10.
Proof.
  intros E. destruct (sentence_fragments text) as [|f fs] eqn:Ef.
  - rewrite (complexity_no_sentences text Ef) in E. injection E as <-.
    split; reflexivity || discriminate.
  - assert (Hs : sentence_fragments text <> []) by (rewrite Ef; discriminate).
    rewrite (complexity_closed_form text Hs) in E. injection E as <-.
    pose proof (avg_words_pos text Hs) as Ha.
    pose proof (legal_density_nonneg text) as Hd.
    unfold Qdiv.
    change (/ 15) with (1 # 15). change (/ 2) with (1 # 2).
    split; split_min; lra.
Qed.

Lemma risk_score_pos (fs : list Clause.t) (c : Q) (w : Z) :
  0 < c -> (0 <= w)%Z -> 0 < calculate_risk_score fs c w.
Proof.
  intros Hc Hw. unfold calculate_risk_score.
  pose proof (inject_Z_le _ _ (proj1 (for_clauses_bounds fs))) as Hn.
  assert (H0 : 0 <= inject_Z (Z.of_nat (List.length fs)))
    by (change 0 with (inject_Z 0); apply inject_Z_le; lia).
  pose proof (inject_Z_le _ _ Hw) as Hw'. change (inject_Z 0) with 0 in Hw'.
  split_min; lra.
Qed.

(** X16: what a successful analysis returns. The word count is at least
    1, the complexity and the risk score lie in (0, 10], there are at most
    29 findings and between 1 and 15 key terms, and the quoted original
    text has at most 1003 code points. *)
Theorem analysis_result_bounds (self self' : Analyzer.t) (env : Env)
        (file_path filename : str) (a : Analyzer.analysis) :
  Analyzer.analyze_document self env file_path filename = (self', inr a) ->
  (1 <= Analyzer.word_count a)%Z
  /\ (0 < Analyzer.complexity_score a /\ Analyzer.complexity_score a <= 10)
  /\ (0 < Analyzer.risk_score a /\ Analyzer.risk_score a <= 10)
  /\ (List.length (Analyzer.risk_clauses a) <= 29)%nat
  /\ (1 <= List.length (Analyzer.key_terms a) <= 15)%nat
  /\ (List.length (Analyzer.original_text a) <= 1003)%nat.
Proof.
  intros H.
  destruct (analyze_cases self env file_path filename)
    as [(text & E & Hlen)|(e & Ee)]; [|rewrite Ee in H; discriminate H].
  destruct (analyze_long self env file_path filename text E Hlen) as (c & Hc & Ea).
  rewrite Ea in H. cbv zeta in H. injection H as _ <-.
  cbn [Analyzer.word_count Analyzer.complexity_score Analyzer.risk_score
       Analyzer.risk_clauses Analyzer.key_terms Analyzer.original_text].
  destruct (complexity_bounds text c Hc) as [Hc0 Hc10].
  destruct (long_text_has_word text Hlen) as [Hw _].
  assert (Hwc : (1 <= Z.of_nat (List.length (split text)))%Z).
  { destruct (split text); [congruence | simpl List.length; lia]. }
  split; [exact Hwc|]. split; [tauto|]. split; [split|].
  - apply risk_score_pos; [exact Hc0 | lia].
  - apply Q.le_min_r.
  - split; [apply detect_length|]. split.
    + pose proof (split_on_nonempty (ord ",")) as Hne.
      unfold Analyzer.extract_key_terms. cbn [Analyzer.model].
      destruct (Analyzer.model self) as [gen|]; [|simpl; lia].
      destruct (gen _) as [e|r]; [simpl; lia|].
      rewrite length_firstn, length_map. specialize (Hne r []).
      destruct (split_on (ord ",") [] r); [congruence | simpl List.length; lia].
    + destruct (Nat.ltb_spec 1000 (List.length text)) as [Hl|Hl]; [|lia].
      rewrite length_app, slice_length by lia.
      change (List.length (of_string "...")) with 3%nat. lia.
Qed.

Lemma analysis_result_bounds_witness :
  exists a,
    Analyzer.analyze_document (Analyzer.init (inr echo_model))
      (mkEnv None (fun _ => inl []) (fun _ => inr refund_text))
      (of_string "/tmp/terms.txt") (of_string "terms.txt")
    = (Analyzer.mk (Some echo_model) (Analyzer.Text refund_text), inr a)
    /\ (1 <= Analyzer.word_count a)%Z.
Proof.
  eexists. split; [vm_compute; reflexivity|].
  eapply (analysis_result_bounds (Analyzer.init (inr echo_model))
            (Analyzer.mk (Some echo_model) (Analyzer.Text refund_text))
            (mkEnv None (fun _ => inl []) (fun _ => inr refund_text))
            (of_string "/tmp/terms.txt") (of_string "terms.txt")).
  vm_compute. reflexivity.
Defined.

Lemma fold_pages_blank (pages : list str) :
  Forall (fun page => forallb isspace page = true) pages ->
  forall text, forallb isspace text = true ->
  forallb isspace (fold_left (fun text page => text ++ page ++ [10%N]) pages text)
  = true.
Proof.
  induction 1 as [|page pages Hp _ IH]; intros text Ht; [exact Ht|].
  simpl. apply IH. rewrite !forallb_app.
  apply andb_true_iff. split; [exact Ht|].
  apply andb_true_iff. split; [exact Hp | reflexivity].
Qed.

(** X17: a PDF whose pages carry no text (a scan, say) is refused as too
    short: when every page text is empty or whitespace, the analysis
    fails with the fixed message and the analyzer keeps its state. *)
Theorem blank_pdf_refused (self : Analyzer.t) (env : Env)
        (file_path filename : str)
        (pdf_reader : str -> raises (list str)) (pages : list str) :
  endswith (lower filename) (of_string ".pdf") = true ->
  PyPDF2 env = Some pdf_reader ->
  pdf_reader file_path = inr pages ->
  Forall (fun page => forallb isspace page = true) pages ->
  Analyzer.analyze_document self env file_path filename
  = (self, inl (of_string "Analysis failed: Document appears to be empty or too short to analyze")).
Proof.
  intros Hpdf Hlib Hread Hblank.
  apply analyze_short with
    (text := strip (fold_left (fun text page => text ++ page ++ [10%N]) pages [])).
  - unfold Analyzer.extract_text. rewrite Hpdf.
    unfold extract_text_from_pdf. now rewrite Hlib, Hread.
  - rewrite strip_idempotent.
    assert (E : strip (fold_left (fun text page => text ++ page ++ [10%N]) pages [])
                = []) by now apply strip_nil_iff, fold_pages_blank.
    rewrite E. simpl. lia.
Qed.

Lemma blank_pdf_refused_witness :
  Analyzer.analyze_document (Analyzer.init (inr echo_model))
    (mkEnv (Some (fun _ => inr [of_string "  "; []])) (fun _ => inl [])
           (fun _ => inl []))
    (of_string "/tmp/scan.pdf") (of_string "Scan.PDF")
  = (Analyzer.init (inr echo_model),
     inl (of_string "Analysis failed: Document appears to be empty or too short to analyze")).
Proof.
  apply (blank_pdf_refused (Analyzer.init (inr echo_model))
           (mkEnv (Some (fun _ => inr [of_string "  "; []])) (fun _ => inl [])
                  (fun _ => inl []))
           (of_string "/tmp/scan.pdf") (of_string "Scan.PDF")
           (fun _ => inr [of_string "  "; []]) [of_string "  "; []]).
  - vm_compute. reflexivity.
  - reflexivity.
  - reflexivity.
  - repeat constructor.
Defined.

(** X18: without a model an image is never analysed, since reading it
    needs the model, while any other document of 50 or more code points
    after trimming is still analysed and gets the fixed replacement texts
    in place of the generated ones. *)
Theorem without_model (self : Analyzer.t) (env : Env) (file_path filename : str) :
  Analyzer.model self = None ->
  (endswith (lower filename) (of_string ".pdf") = false ->
   existsb (endswith (lower filename))
           [of_string ".jpg"; of_string ".jpeg"; of_string ".png"] = true ->
   exists e,
     Analyzer.analyze_document self env file_path filename
     = (self, inl (of_string "Analysis failed: Could not extract text from image: " ++ e)))
  /\ (forall self' a,
        Analyzer.analyze_document self env file_path filename = (self', inr a) ->
        Analyzer.summary a
        = of_string "Summary unavailable - Gemini model not initialized"
        /\ Analyzer.simplified_text a
           = of_string "Simplified text unavailable - Gemini model not initialized"
        /\ Analyzer.key_terms a
           = [of_string "Key terms unavailable - Gemini model not initialized"]).
Proof.
  intros Hm. split.
  - intros Hpdf Himg.
    assert (E : exists e, Analyzer.extract_text self env file_path filename
                          = inl (of_string "Could not extract text from image: " ++ e)).
    { unfold Analyzer.extract_text. rewrite Hpdf, Himg, Hm.
      unfold extract_text_from_image.
      destruct (Image_open env file_path); eexists; reflexivity. }
    destruct E as [e E]. exists e.
    rewrite (analyze_unread _ _ _ _ _ E). reflexivity.
  - intros self' a H.
    destruct (analyze_cases self env file_path filename)
      as [(text & E & Hlen)|(e & Ee)]; [|rewrite Ee in H; discriminate H].
    destruct (analyze_long self env file_path filename text E Hlen) as (c & _ & Ea).
    rewrite Ea in H. cbv zeta in H. injection H as _ <-.
    unfold Analyzer.generate_summary, Analyzer.simplify_text,
      Analyzer.extract_key_terms.
    cbn [Analyzer.summary Analyzer.simplified_text Analyzer.key_terms
         Analyzer.model].
    now rewrite Hm.
Qed.

Lemma without_model_witness :
  exists e,
    Analyzer.analyze_document (Analyzer.init (inl []))
      (mkEnv None (fun _ => inr []) (fun _ => inl []))
      (of_string "/tmp/page.png") (of_string "page.png")
    = (Analyzer.init (inl []),
       inl (of_string "Analysis failed: Could not extract text from image: " ++ e)).
Proof.
  apply (proj1 (without_model (Analyzer.init (inl []))
                  (mkEnv None (fun _ => inr []) (fun _ => inl []))
                  (of_string "/tmp/page.png") (of_string "page.png") eq_refl)).
  - vm_compute. reflexivity.
  - vm_compute. reflexivity.
Defined.

End AnalysisResults.

(** * The request handlers *)

Section HandlerFacts.
Import PyStr.

Lemma analyze_failure_keeps_state (self self' : Analyzer.t) (env : Env)
      (file_path filename e : str) :
  Analyzer.analyze_document self env file_path filename = (self', inl e) ->
  self' = self.
Proof.
  intros H.
  destruct (analyze_cases self env file_path filename)
    as [(text & E & Hlen)|(e' & Ee)].
  - destruct (analyze_long self env file_path filename text E Hlen) as (c & _ & Ea).
    rewrite Ea in H. discriminate H.
  - rewrite Ee in H. now injection H.
Qed.

Lemma truthy_true {A : Type} (l : list A) : l <> [] -> truthy l = true.
Proof. destruct l; [congruence | reflexivity]. Qed.

(** X19: once an analysis has succeeded, a question that is not blank is
    always answered, from the trimmed question and the text of that
    document. *)
Theorem ask_after_analysis (self self' : Analyzer.t) (env : Env)
        (file_path filename : str) (a : Analyzer.analysis) (q : str) :
  Analyzer.analyze_document self env file_path filename = (self', inr a) ->
  strip q <> [] ->
  exists text,
    Analyzer.extract_text self env file_path filename = inr text
    /\ App.ask_question self' (Some q)
       = App.Answer (Analyzer.answer_question self' (strip q) text).
Proof.
  intros H Hq.
  destruct (analyze_cases self env file_path filename)
    as [(text & E & Hlen)|(e & Ee)]; [|rewrite Ee in H; discriminate H].
  destruct (analyze_long self env file_path filename text E Hlen) as (c & _ & Ea).
  rewrite Ea in H. cbv zeta in H. injection H as <- _.
  exists text. split; [exact E|].
  unfold App.ask_question. rewrite (truthy_true _ Hq).
  cbn [negb Analyzer.current_document_text].
  destruct (long_text_has_word text Hlen) as [_ Hne].
  now rewrite (truthy_true _ Hne).
Qed.

Lemma ask_after_analysis_witness :
  exists text,
    Analyzer.extract_text (Analyzer.init (inr echo_model))
      (mkEnv None (fun _ => inl []) (fun _ => inr refund_text))
      (of_string "/tmp/terms.txt") (of_string "terms.txt") = inr text
    /\ App.ask_question (Analyzer.mk (Some echo_model) (Analyzer.Text refund_text))
                        (Some (of_string " Why? "))
       = App.Answer (Analyzer.answer_question
                       (Analyzer.mk (Some echo_model) (Analyzer.Text refund_text))
                       (strip (of_string " Why? ")) text).
Proof.
  destruct (analyze_long (Analyzer.init (inr echo_model))
              (mkEnv None (fun _ => inl []) (fun _ => inr refund_text))
              (of_string "/tmp/terms.txt") (of_string "terms.txt") refund_text)
    as (c & _ & Ea).
  - reflexivity.
  - vm_compute. lia.
  - eapply (ask_after_analysis (Analyzer.init (inr echo_model))).
    + rewrite Ea. reflexivity.
    + vm_compute. discriminate.
Defined.

(** X20: on a JSON object whose question member is absent, or is a
    string that is blank once trimmed, the handler replies "No question
    provided" whatever the analyzer holds.  Any other string question is
    refused as long as no document was analysed, and the reply depends on
    how the analyzer was built: when the model was created
    [current_document_text] is [None] and the reply is "No document
    analyzed yet"; when creating the model failed the attribute was never
    set and the reply is the text of the attribute error.  An analysis
    that fails changes neither reply. *)
Theorem ask_refused (self self' : Analyzer.t) (env : Env)
        (file_path filename e q : str) (new_model : raises Model) :
  App.ask_question self None = App.Error (of_string "No question provided")
  /\ (strip q = [] ->
      App.ask_question self (Some q) = App.Error (of_string "No question provided"))
  /\ (strip q <> [] ->
      (Analyzer.current_document_text self = Analyzer.PyNone ->
       App.ask_question self (Some q)
       = App.Error (of_string "No document analyzed yet"))
      /\ (Analyzer.current_document_text self = Analyzer.Missing ->
          App.ask_question self (Some q)
          = App.Error (of_string
              "'DocumentAnalyzer' object has no attribute 'current_document_text'"))
      /\ (Analyzer.analyze_document self env file_path filename = (self', inl e) ->
          App.ask_question self' (Some q) = App.ask_question self (Some q))
      /\ App.ask_question (Analyzer.init new_model) (Some q)
         = match new_model with
           | inr _ => App.Error (of_string "No document analyzed yet")
           | inl _ =>
               App.Error (of_string
                 "'DocumentAnalyzer' object has no attribute 'current_document_text'")
           end)
  /\ Analyzer.current_document_text (Analyzer.init new_model)
     = match new_model with inr _ => Analyzer.PyNone | inl _ => Analyzer.Missing end.
Proof.
  split; [reflexivity|]. split; [|split].
  - intros Hq. unfold App.ask_question. now rewrite Hq.
  - intros Hq.
    assert (E : forall a : Analyzer.t,
               App.ask_question a (Some q)
               = match Analyzer.current_document_text a with
                 | Analyzer.Missing =>
                     App.Error (of_string
                       "'DocumentAnalyzer' object has no attribute 'current_document_text'")
                 | Analyzer.PyNone => App.Error (of_string "No document analyzed yet")
                 | Analyzer.Text document_text =>
                     if negb (truthy document_text)
                     then App.Error (of_string "No document analyzed yet")
                     else App.Answer (Analyzer.answer_question a (strip q) document_text)
                 end).
    { intros a. unfold App.ask_question. now rewrite (truthy_true _ Hq). }
    split; [|split; [|split]].
    + intros H. now rewrite E, H.
    + intros H. now rewrite E, H.
    + intros H. now rewrite (analyze_failure_keeps_state _ _ _ _ _ _ H).
    + rewrite E. now destruct new_model.
  - now destruct new_model.
Qed.

Lemma ask_refused_witness :
  App.ask_question (Analyzer.init (inr echo_model)) (Some (of_string "  "))
  = App.Error (of_string "No question provided")
  /\ App.ask_question (Analyzer.init (inr echo_model)) (Some (of_string "Why?"))
     = App.Error (of_string "No document analyzed yet")
  /\ App.ask_question (Analyzer.init (inl (of_string "no key")))
                      (Some (of_string "Why?"))
     = App.Error (of_string
         "'DocumentAnalyzer' object has no attribute 'current_document_text'").
Proof.
  split; [|split].
  - apply (proj1 (proj2 (ask_refused (Analyzer.init (inr echo_model))
                           (Analyzer.init (inr echo_model))
                           (mkEnv None (fun _ => inl []) (fun _ => inl []))
                           [] [] [] (of_string "  ") (inr echo_model)))).
    vm_compute. reflexivity.
  - refine (proj1 (proj1 (proj2 (proj2 (ask_refused (Analyzer.init (inr echo_model))
                                   (Analyzer.init (inr echo_model))
                                   (mkEnv None (fun _ => inl []) (fun _ => inl []))
                                   [] [] [] (of_string "Why?") (inr echo_model))))
                     _) _).
    + vm_compute. discriminate.
    + reflexivity.
  - refine (proj1 (proj2 (proj1 (proj2 (proj2
              (ask_refused (Analyzer.init (inl (of_string "no key")))
                 (Analyzer.init (inl (of_string "no key")))
                 (mkEnv None (fun _ => inl []) (fun _ => inl []))
                 [] [] [] (of_string "Why?") (inl (of_string "no key")))))
                     _)) _).
    + vm_compute. discriminate.
    + reflexivity.
Defined.













End HandlerFacts.
